(** * eCFR analytics: a shallow embedding of [apps/lake/analytics.py]

    The module under study is the class [ECFRAnalytics]: a handful of
    read-only SQL queries against a DuckDB database, each reshaped into a
    list of Python dictionaries, and one in-memory loop, the tiered
    word-count estimator.

    Tables are lists of rows in storage order, a query is a function on
    these lists, a fetched row is a tuple of Python values, and
    [dict(zip(columns, row))] is a finite map from column names to
    values. *)

From stdpp Require Import gmap strings list fin_maps sorting.
From Stdlib Require Import ZArith Lia.

Open Scope string_scope.
Open Scope Z_scope.

(** ** Python values *)

Module Py.

(** A DOUBLE is carried as its IEEE-754 binary64 bit pattern, an integer
    in [0, 2^64): sign bit 63, exponent bits 62..52, mantissa below. *)
Definition double := Z.

Definition sign_bit (d : double) : bool := Z.testbit d 63.
Definition magnitude (d : double) : Z := Z.land d (2 ^ 63 - 1).
Definition is_nan (d : double) : bool := 2047 * 2 ^ 52 <? magnitude d.

(** A calendar date, as [datetime.date(year, month, day)]. *)
Record date := Date { date_year : Z; date_month : Z; date_day : Z }.

(** The values a fetched cell can hold once it reaches Python. *)
Inductive value :=
| PyNone
| PyInt (n : Z)
| PyStr (s : string)
| PyFloat (d : double)
| PyDate (d : date).

(** Truth value testing, as performed by [if x:]. [None], [0], [0.0],
    [-0.0] and the empty string are false, everything else is true. *)
Definition truthy (v : value) : bool :=
  match v with
  | PyNone => false
  | PyInt n => negb (n =? 0)
  | PyStr s => negb (String.eqb s "")
  | PyFloat d => negb (magnitude d =? 0)
  | PyDate _ => true
  end.

(** [dict(pairs)]: later pairs overwrite earlier ones. *)
Definition dict (pairs : list (string * value)) : gmap string value :=
  fold_left (fun d kv => <[kv.1 := kv.2]> d) pairs ∅.

(** A nullable cell becomes [None] or the wrapped value. *)
Definition nullable {A} (f : A → value) (o : option A) : value :=
  match o with Some a => f a | None => PyNone end.

End Py.
Export Py.

#[global] Instance date_eq_dec : EqDecision date.
Proof. solve_decision. Defined.
#[global] Instance value_eq_dec : EqDecision value.
Proof. solve_decision. Defined.

(** ** The word-count estimator *)

(** One tuple fetched by the grouping query of [calculate_word_counts]:
    [(agency_slug, title, chapter, part, ref_count)]. *)
Record ref_group := RefGroup {
  rg_slug : string;
  rg_title : Z;
  rg_chapter : value;
  rg_part : value;
  rg_ref_count : Z
}.

(** The per-reference weight chosen by the [if part: / elif chapter: / else:]
    cascade. *)
Definition tier_weight (chapter part : value) : Z :=
  if truthy part then 2000
  else if truthy chapter then 10000
  else 50000.

(** One iteration of the loop body on the dictionary [word_counts]. *)
Definition word_count_step (word_counts : gmap string Z) (row : ref_group)
  : gmap string Z :=
  let slug := rg_slug row in
  let word_counts :=
    match word_counts !! slug with
    | None => <[slug := 0]> word_counts
    | Some _ => word_counts
    end in
  let current := default 0 (word_counts !! slug) in
  if truthy (rg_part row) then
    <[slug := current + rg_ref_count row * 2000]> word_counts
  else if truthy (rg_chapter row) then
    <[slug := current + rg_ref_count row * 10000]> word_counts
  else
    <[slug := current + rg_ref_count row * 50000]> word_counts.

(** The loop of [calculate_word_counts] over the fetched tuples. *)
Definition word_count_loop (results : list ref_group) : gmap string Z :=
  fold_left word_count_step results ∅.

(** The contribution of one tuple. *)
Definition contribution (row : ref_group) : Z :=
  rg_ref_count row * tier_weight (rg_chapter row) (rg_part row).

(** The sum of the contributions of the tuples of one agency. *)
Definition agency_total (slug : string) (results : list ref_group) : Z :=
  foldr (fun row acc =>
           if decide (rg_slug row = slug) then contribution row + acc else acc)
        0 results.

(** ** The relational operators used by the queries *)

Module Sql.

(** Total order of DOUBLE values: negative values below positive ones,
    the two zeros equal, NaN above everything. *)
Definition double_key (d : double) : Z :=
  if sign_bit d then - magnitude d else magnitude d.

Definition double_leb (a b : double) : bool :=
  if is_nan b then true
  else if is_nan a then false
  else double_key a <=? double_key b.

Definition date_leb (a b : date) : bool :=
  (date_year a <? date_year b)
  || ((date_year a =? date_year b)
      && ((date_month a <? date_month b)
          || ((date_month a =? date_month b)
              && (date_day a <=? date_day b)))).

(** [ORDER BY x DESC] on a nullable column: larger values first, and NULL
    last, which is the default of the engine in both directions. *)
Definition desc_nulls_last {A} (leb : A → A → bool) (a b : option A) : bool :=
  match a, b with
  | _, None => true
  | None, Some _ => false
  | Some x, Some y => leb y x
  end.

(** [ORDER BY]: a merge sort of the rows, [before a b] telling that [a]
    may be listed ahead of [b]. The engine is free in the order of rows
    that tie; the merge sort settles on one of the orders it may choose. *)
Definition order_by {A} (before : A → A → bool) (rows : list A) : list A :=
  merge_sort (λ a b, Is_true (before a b)) rows.

(** [LIMIT k]. *)
Definition limit {A} (k : N) (rows : list A) : list A :=
  take (N.to_nat k) rows.

(** [WHERE p]. *)
Definition where_ {A} (p : A → bool) (rows : list A) : list A :=
  List.filter p rows.

(** [SELECT DISTINCT e]: one copy of each value. *)
Definition distinct {A} `{EqDecision A} (rows : list A) : list A :=
  remove_dups rows.

(** [a INNER JOIN b ON on]: every pair of rows that satisfies [on]. *)
Definition inner_join {A B} (on : A → B → bool) (a : list A) (b : list B)
  : list (A * B) :=
  a ≫= λ x, (λ y, (x, y)) <$> List.filter (on x) b.

(** [GROUP BY key] with [COUNT( * )]: one group per distinct key, in order
    of first occurrence. *)
Fixpoint count_into {K} `{EqDecision K} (key : K) (groups : list (K * Z))
  : list (K * Z) :=
  match groups with
  | [] => [(key, 1)]
  | (k, n) :: rest =>
      if decide (k = key) then (k, n + 1) :: rest
      else (k, n) :: count_into key rest
  end.

Definition group_by_count {A K} `{EqDecision K} (key : A → K) (rows : list A)
  : list (K * Z) :=
  fold_left (λ groups r, count_into (key r) groups) rows [].

(** [fetchone()]: the first row of the result, or [None]. *)
Definition fetchone {A} (rows : list A) : option A := head rows.

End Sql.

(** ** The tables read by the queries

    The tables are declared by the ingestion step, which is not part of this
    module. Column names are those of the queries; types and nullability
    follow the data model of the specification. *)

Module AgencyMetrics.
(** Modelled from the spec: a row of [agency_metrics], the AgencyMetric
    entity; the parent, the short name, the correction years, the average
    lag and the RVI may be NULL. *)
Record row := Row {
  slug : string;
  name : string;
  short_name : option string;
  parent_slug : option string;
  cfr_reference_count : Z;
  child_count : Z;
  total_corrections : Z;
  years_with_corrections : Z;
  first_correction_year : option Z;
  last_correction_year : option Z;
  avg_correction_lag_days : option double;
  rvi : option double
}.
End AgencyMetrics.

Module YearlyTrend.
(** Modelled from the spec: a row of [correction_trends_yearly], the
    YearlyTrend entity; the lag statistics may be NULL. *)
Record row := Row {
  year : Z;
  correction_count : Z;
  unique_titles : Z;
  avg_lag_days : option double;
  min_lag_days : option Z;
  max_lag_days : option Z
}.
End YearlyTrend.

Module TitleTrend.
(** Modelled from the spec: a row of [correction_trends_by_title], the
    TitleTrend entity. *)
Record row := Row {
  title : Z;
  correction_count : Z;
  years_active : Z;
  first_year : Z;
  last_year : Z;
  avg_lag_days : option double
}.
End TitleTrend.

Module TimeSeries.
(** Modelled from the spec: a row of [correction_time_series], the
    TimeSeriesPoint entity. *)
Record row := Row {
  year : Z;
  month : Z;
  correction_count : Z;
  avg_lag_days : option double
}.
End TimeSeries.

Module CfrReference.
(** Modelled from the spec: a row of [cfr_references]; chapter and part hold
    the Python value the cell is fetched as, [None] for NULL. *)
Record row := Row {
  agency_slug : string;
  title : Z;
  chapter : value;
  part : value
}.
End CfrReference.

Module Correction.
(** Modelled from the spec: a row of [corrections_parsed], the
    CorrectionRecord entity; the dates and the lag may be NULL. *)
Record row := Row {
  ecfr_id : Z;
  cfr_reference : string;
  title : Z;
  corrective_action : string;
  error_occurred : option date;
  error_corrected : option date;
  lag_days : option Z;
  year : Z
}.
End Correction.

(** The open connection [self.conn]: the tables, and the engine's
    [ROUND(x, digits)] on DOUBLE values. *)
Record connection := Connection {
  sql_round : double → Z → double;
  agency_metrics : list AgencyMetrics.row;
  correction_trends_yearly : list YearlyTrend.row;
  correction_trends_by_title : list TitleTrend.row;
  correction_time_series : list TimeSeries.row;
  cfr_references : list CfrReference.row;
  corrections_parsed : list Correction.row
}.

(** ** The methods of [ECFRAnalytics] *)

Module ECFRAnalytics.

Import Sql.

(** [[dict(zip(columns, row)) for row in results]] *)
Definition to_dicts (columns : list string) (results : list (list value))
  : list (gmap string value) :=
  (λ row, dict (zip columns row)) <$> results.

(** *** get_agency_metrics *)

Definition agency_metric_columns : list string :=
  [ "slug"; "name"; "short_name"; "parent_slug";
    "cfr_reference_count"; "child_count"; "total_corrections";
    "years_with_corrections"; "first_correction_year";
    "last_correction_year"; "avg_correction_lag_days"; "rvi" ].

(** The select list shared by [get_agency_metrics] and
    [get_agency_detail]. *)
Definition select_agency_metric (conn : connection) (r : AgencyMetrics.row)
  : list value :=
  [ PyStr (AgencyMetrics.slug r);
    PyStr (AgencyMetrics.name r);
    nullable PyStr (AgencyMetrics.short_name r);
    nullable PyStr (AgencyMetrics.parent_slug r);
    PyInt (AgencyMetrics.cfr_reference_count r);
    PyInt (AgencyMetrics.child_count r);
    PyInt (AgencyMetrics.total_corrections r);
    PyInt (AgencyMetrics.years_with_corrections r);
    nullable PyInt (AgencyMetrics.first_correction_year r);
    nullable PyInt (AgencyMetrics.last_correction_year r);
    nullable PyFloat
      ((λ d, sql_round conn d 1) <$> AgencyMetrics.avg_correction_lag_days r);
    nullable PyFloat (AgencyMetrics.rvi r) ].

Definition total_corrections_desc (a b : AgencyMetrics.row) : bool :=
  AgencyMetrics.total_corrections b <=? AgencyMetrics.total_corrections a.

(** [if limit:] on an optional integer: [None] and [0] add no clause. *)
Definition limit_given (limit : option N) : bool :=
  match limit with
  | None => false
  | Some k => negb (k =? 0)%N
  end.

Definition get_agency_metrics (conn : connection) (limit : option N)
  : list (gmap string value) :=
  let query := order_by total_corrections_desc (agency_metrics conn) in
  let query :=
    if limit_given limit then Sql.limit (default 0%N limit) query
    else query in
  let results := select_agency_metric conn <$> query in
  to_dicts agency_metric_columns results.

(** *** get_correction_trends_yearly *)

Definition yearly_columns : list string :=
  [ "year"; "correction_count"; "unique_titles";
    "avg_lag_days"; "min_lag_days"; "max_lag_days" ].

Definition select_yearly (conn : connection) (r : YearlyTrend.row)
  : list value :=
  [ PyInt (YearlyTrend.year r);
    PyInt (YearlyTrend.correction_count r);
    PyInt (YearlyTrend.unique_titles r);
    nullable PyFloat
      ((λ d, sql_round conn d 1) <$> YearlyTrend.avg_lag_days r);
    nullable PyInt (YearlyTrend.min_lag_days r);
    nullable PyInt (YearlyTrend.max_lag_days r) ].

Definition year_asc (a b : YearlyTrend.row) : bool :=
  YearlyTrend.year a <=? YearlyTrend.year b.

Definition get_correction_trends_yearly (conn : connection)
  : list (gmap string value) :=
  let results :=
    select_yearly conn <$> order_by year_asc (correction_trends_yearly conn) in
  to_dicts yearly_columns results.

(** *** get_correction_trends_by_title *)

Definition title_columns : list string :=
  [ "title"; "correction_count"; "years_active";
    "first_year"; "last_year"; "avg_lag_days" ].

Definition select_title (conn : connection) (r : TitleTrend.row)
  : list value :=
  [ PyInt (TitleTrend.title r);
    PyInt (TitleTrend.correction_count r);
    PyInt (TitleTrend.years_active r);
    PyInt (TitleTrend.first_year r);
    PyInt (TitleTrend.last_year r);
    nullable PyFloat
      ((λ d, sql_round conn d 1) <$> TitleTrend.avg_lag_days r) ].

Definition correction_count_desc (a b : TitleTrend.row) : bool :=
  TitleTrend.correction_count b <=? TitleTrend.correction_count a.

(** The query of [get_correction_trends_by_title] up to its [LIMIT]. *)
Definition title_trends_ordered (conn : connection) : list TitleTrend.row :=
  order_by correction_count_desc (correction_trends_by_title conn).

Definition get_correction_trends_by_title (conn : connection) (limit : N)
  : list (gmap string value) :=
  let results :=
    select_title conn <$> Sql.limit limit (title_trends_ordered conn) in
  to_dicts title_columns results.

(** *** get_time_series_data *)

Definition time_series_columns : list string :=
  [ "year"; "month"; "correction_count"; "avg_lag_days" ].

Definition select_time_series (conn : connection) (r : TimeSeries.row)
  : list value :=
  [ PyInt (TimeSeries.year r);
    PyInt (TimeSeries.month r);
    PyInt (TimeSeries.correction_count r);
    nullable PyFloat
      ((λ d, sql_round conn d 1) <$> TimeSeries.avg_lag_days r) ].

Definition year_month_asc (a b : TimeSeries.row) : bool :=
  (TimeSeries.year a <? TimeSeries.year b)
  || ((TimeSeries.year a =? TimeSeries.year b)
      && (TimeSeries.month a <=? TimeSeries.month b)).

Definition get_time_series_data (conn : connection)
  : list (gmap string value) :=
  let results :=
    select_time_series conn
      <$> order_by year_month_asc (correction_time_series conn) in
  to_dicts time_series_columns results.

(** *** get_top_agencies_by_rvi *)

Definition rvi_columns : list string :=
  [ "slug"; "name"; "short_name"; "total_corrections";
    "cfr_reference_count"; "rvi" ].

Definition select_rvi (r : AgencyMetrics.row) : list value :=
  [ PyStr (AgencyMetrics.slug r);
    PyStr (AgencyMetrics.name r);
    nullable PyStr (AgencyMetrics.short_name r);
    PyInt (AgencyMetrics.total_corrections r);
    PyInt (AgencyMetrics.cfr_reference_count r);
    nullable PyFloat (AgencyMetrics.rvi r) ].

Definition has_corrections (r : AgencyMetrics.row) : bool :=
  0 <? AgencyMetrics.total_corrections r.

Definition rvi_desc (a b : AgencyMetrics.row) : bool :=
  desc_nulls_last double_leb (AgencyMetrics.rvi a) (AgencyMetrics.rvi b).

(** The query of [get_top_agencies_by_rvi] up to its [LIMIT]. *)
Definition rvi_ordered (conn : connection) : list AgencyMetrics.row :=
  order_by rvi_desc (where_ has_corrections (agency_metrics conn)).

Definition get_top_agencies_by_rvi (conn : connection) (limit : N)
  : list (gmap string value) :=
  let results := select_rvi <$> Sql.limit limit (rvi_ordered conn) in
  to_dicts rvi_columns results.

(** *** get_agency_detail *)

Definition get_agency_detail (conn : connection) (slug : string)
  : option (gmap string value) :=
  let result :=
    fetchone
      (select_agency_metric conn
         <$> where_ (λ r, String.eqb (AgencyMetrics.slug r) slug)
                    (agency_metrics conn)) in
  match result with
  | None => None
  | Some [] => None
  | Some row => Some (dict (zip agency_metric_columns row))
  end.

(** *** get_corrections_for_agency *)

Definition correction_columns : list string :=
  [ "ecfr_id"; "cfr_reference"; "title"; "corrective_action";
    "error_occurred"; "error_corrected"; "lag_days"; "year" ].

Definition select_correction (c : Correction.row) : list value :=
  [ PyInt (Correction.ecfr_id c);
    PyStr (Correction.cfr_reference c);
    PyInt (Correction.title c);
    PyStr (Correction.corrective_action c);
    nullable PyDate (Correction.error_occurred c);
    nullable PyDate (Correction.error_corrected c);
    nullable PyInt (Correction.lag_days c);
    PyInt (Correction.year c) ].

(** The common table expression [agency_titles]. *)
Definition agency_titles (conn : connection) (slug : string) : list Z :=
  distinct
    (CfrReference.title
       <$> where_ (λ r, String.eqb (CfrReference.agency_slug r) slug)
                  (cfr_references conn)).

(** [ORDER BY c.year DESC, c.error_corrected DESC] *)
Definition year_corrected_desc (a b : Correction.row) : bool :=
  (Correction.year b <? Correction.year a)
  || ((Correction.year a =? Correction.year b)
      && desc_nulls_last date_leb
           (Correction.error_corrected a) (Correction.error_corrected b)).

(** The query of [get_corrections_for_agency] up to its [LIMIT]. *)
Definition agency_corrections_ordered (conn : connection) (slug : string)
  : list Correction.row :=
  order_by year_corrected_desc
    (fst <$> inner_join (λ c t, Correction.title c =? t)
               (corrections_parsed conn) (agency_titles conn slug)).

Definition get_corrections_for_agency (conn : connection) (slug : string)
  (limit : N) : list (gmap string value) :=
  let results :=
    select_correction
      <$> Sql.limit limit (agency_corrections_ordered conn slug) in
  to_dicts correction_columns results.

(** *** calculate_word_counts *)

Definition reference_groups (conn : connection) : list ref_group :=
  (λ g, let '(slug, title, chapter, part, ref_count) := g in
        RefGroup slug title chapter part ref_count)
    <$> group_by_count
          (λ r, (CfrReference.agency_slug r, CfrReference.title r,
                 CfrReference.chapter r, CfrReference.part r))
          (cfr_references conn).

Definition calculate_word_counts (conn : connection) : gmap string Z :=
  word_count_loop (reference_groups conn).

End ECFRAnalytics.

(** ** Sample data *)

Module Sample.

(** The DOUBLE values 0.0, 5.0 and 12.5. *)
Definition d0_0 : double := 0.
Definition d5_0 : double := 0x4014000000000000.
Definition d12_5 : double := 0x4029000000000000.

(** A rounding that is exact on values with one decimal, such as the
    sample values above. *)
Definition round_exact (d : double) (digits : Z) : double := d.

Definition agency_a : AgencyMetrics.row :=
  AgencyMetrics.Row "a" "Agency A" None None 5 0 0 0 None None None (Some d0_0).

Definition agency_b : AgencyMetrics.row :=
  AgencyMetrics.Row "b" "Agency B" (Some "B") (Some "a") 2 0 10 3
    (Some 2018) (Some 2020) (Some d12_5) (Some d5_0).

Definition correction (id year : Z) (corrected : date) : Correction.row :=
  Correction.Row id "40 CFR 1.1" 40 "Revised" None (Some corrected) None year.

Definition epa_references : list CfrReference.row :=
  [ CfrReference.Row "epa" 40 PyNone PyNone;
    CfrReference.Row "epa" 40 (PyStr "I") PyNone;
    CfrReference.Row "epa" 40 (PyStr "I") (PyStr "A");
    CfrReference.Row "epa" 40 PyNone PyNone;
    CfrReference.Row "epa" 40 (PyStr "I") (PyStr "A");
    CfrReference.Row "epa" 40 (PyStr "I") PyNone;
    CfrReference.Row "epa" 40 (PyStr "I") (PyStr "A");
    CfrReference.Row "epa" 40 (PyStr "I") (PyStr "A");
    CfrReference.Row "epa" 40 (PyStr "I") PyNone;
    CfrReference.Row "epa" 40 (PyStr "I") (PyStr "A") ].

Definition conn : connection :=
  {| sql_round := round_exact;
     agency_metrics := [agency_a; agency_b];
     correction_trends_yearly :=
       [ YearlyTrend.Row 2020 4 2 (Some d5_0) (Some 1) (Some 9);
         YearlyTrend.Row 2018 1 1 None None None ];
     correction_trends_by_title :=
       [ TitleTrend.Row 7 1 1 2018 2018 None;
         TitleTrend.Row 40 4 1 2020 2020 (Some d5_0) ];
     correction_time_series :=
       [ TimeSeries.Row 2020 3 2 None;
         TimeSeries.Row 2018 11 1 None;
         TimeSeries.Row 2020 1 2 (Some d5_0) ];
     cfr_references := epa_references ++ [CfrReference.Row "usda" 7 PyNone PyNone];
     corrections_parsed :=
       [ correction 1 2019 (Date 2019 5 1);
         correction 2 2020 (Date 2020 2 1);
         correction 3 2018 (Date 2018 7 1);
         Correction.Row 4 "7 CFR 2.1" 7 "Removed" None None None 2021 ] |}.

End Sample.

(** ** The summary report and its printed digest *)

Module Aggregate.

(** [COUNT( * )] over a table. *)
Definition count_star {A} (rows : list A) : Z := Z.of_nat (length rows).

(** [MIN(x)] and [MAX(x)] over a column: NULL over no rows. *)
Definition min_of (xs : list Z) : option Z :=
  foldr (λ x acc, Some (from_option (Z.min x) x acc)) None xs.

Definition max_of (xs : list Z) : option Z :=
  foldr (λ x acc, Some (from_option (Z.max x) x acc)) None xs.

End Aggregate.

Module SummaryReport.

Import ECFRAnalytics.

(** The dictionary under the key ['overview']. *)
Record overview := Overview {
  total_agencies : Z;
  total_corrections : Z;
  total_cfr_references : Z;
  year_range : value * value
}.

(** The dictionary returned by [generate_summary_report]. *)
Record report := Report {
  report_overview : overview;
  top_agencies_by_corrections : list (gmap string value);
  top_agencies_by_rvi : list (gmap string value);
  yearly_trends : list (gmap string value);
  top_titles : list (gmap string value)
}.

(** [generate_summary_report]. The table [agencies_parsed] is only counted,
    so its rows are of any type. *)
Definition generate_summary_report {A} (conn : connection)
    (agencies_parsed : list A) : report :=
  let years := Correction.year <$> corrections_parsed conn in
  {| report_overview :=
       {| total_agencies := Aggregate.count_star agencies_parsed;
          total_corrections := Aggregate.count_star (corrections_parsed conn);
          total_cfr_references := Aggregate.count_star (cfr_references conn);
          year_range :=
            (nullable PyInt (Aggregate.min_of years),
             nullable PyInt (Aggregate.max_of years)) |};
     top_agencies_by_corrections := get_agency_metrics conn (Some 10%N);
     top_agencies_by_rvi := get_top_agencies_by_rvi conn 10%N;
     yearly_trends := get_correction_trends_yearly conn;
     top_titles := get_correction_trends_by_title conn 10%N |}.

(** The slice [[-5:]]: the last five elements, or all of a shorter list. *)
Definition last_five {A} (l : list A) : list A :=
  drop (length l - 5) l.

(** The trends listed by [main] under "Recent Yearly Trends". *)
Definition recent_yearly_trends (r : report) : list (gmap string value) :=
  last_five (yearly_trends r).

End SummaryReport.

(** ** Quantities used to state the results *)

(** The weight of one stored reference. *)
Definition reference_weight (r : CfrReference.row) : Z :=
  tier_weight (CfrReference.chapter r) (CfrReference.part r).

(** The sum of the weights of the stored references of one agency. *)
Definition reference_total (slug : string) (refs : list CfrReference.row) : Z :=
  foldr (λ r acc,
           if decide (CfrReference.agency_slug r = slug)
           then reference_weight r + acc else acc)
        0 refs.

(** The number of stored references of one agency. *)
Definition reference_count (slug : string) (refs : list CfrReference.row) : Z :=
  foldr (λ r acc,
           if decide (CfrReference.agency_slug r = slug) then 1 + acc else acc)
        0 refs.

(** The grouping key of [calculate_word_counts]. *)
Definition reference_key (r : CfrReference.row) : string * Z * value * value :=
  (CfrReference.agency_slug r, CfrReference.title r,
   CfrReference.chapter r, CfrReference.part r).

(** The record built by [get_agency_metrics] and [get_agency_detail] from
    one stored row. *)
Definition agency_metric_record (conn : connection) (r : AgencyMetrics.row)
  : gmap string value :=
  dict (zip ECFRAnalytics.agency_metric_columns
            (ECFRAnalytics.select_agency_metric conn r)).

(** ** More sample data *)

Module Fixtures.

(** Two stored rows with the same slug, and one other. *)
Definition first_b : AgencyMetrics.row :=
  AgencyMetrics.Row "b" "First B" None None 1 0 4 1 (Some 2019) (Some 2019)
    None None.

Definition twice_b : connection :=
  {| sql_round := Sample.round_exact;
     agency_metrics := [Sample.agency_a; first_b; Sample.agency_b];
     correction_trends_yearly := [];
     correction_trends_by_title := [];
     correction_time_series := [];
     cfr_references :=
       [ CfrReference.Row "usda" 7 PyNone PyNone;
         CfrReference.Row "epa" 40 (PyStr "I") (PyStr "A");
         CfrReference.Row "epa" 40 PyNone PyNone ];
     corrections_parsed := corrections_parsed Sample.conn |}.

(** The same references stored in another order. *)
Definition twice_b_reordered : connection :=
  {| sql_round := Sample.round_exact;
     agency_metrics := agency_metrics twice_b;
     correction_trends_yearly := [];
     correction_trends_by_title := [];
     correction_time_series := [];
     cfr_references :=
       [ CfrReference.Row "epa" 40 PyNone PyNone;
         CfrReference.Row "usda" 7 PyNone PyNone;
         CfrReference.Row "epa" 40 (PyStr "I") (PyStr "A") ];
     corrections_parsed := corrections_parsed Sample.conn |}.


End Fixtures.

(** * Properties of the word-count estimator *)

Section word_counts.

Implicit Types (wc : gmap string Z) (row : ref_group) (results : list ref_group).

Lemma word_count_step_insert wc row :
  word_count_step wc row =
  <[rg_slug row := default 0 (wc !! rg_slug row) + contribution row]> wc.
Proof.
  unfold word_count_step, contribution, tier_weight.
  destruct (wc !! rg_slug row) as [v|] eqn:E; simpl.
  - rewrite E; simpl.
    destruct (truthy (rg_part row)), (truthy (rg_chapter row)); reflexivity.
  - rewrite lookup_insert_eq; simpl.
    destruct (truthy (rg_part row)), (truthy (rg_chapter row));
      by rewrite insert_insert_eq.
Qed.

Lemma word_count_loop_snoc results row :
  word_count_loop (results ++ [row]) =
  word_count_step (word_count_loop results) row.
Proof. unfold word_count_loop. by rewrite fold_left_app. Qed.

Lemma agency_total_app slug results1 results2 :
  agency_total slug (results1 ++ results2) =
  agency_total slug results1 + agency_total slug results2.
Proof.
  induction results1 as [|row results1 IH]; simpl; [lia|].
  case_decide; lia.
Qed.

Lemma agency_total_absent slug results :
  slug ∉ rg_slug <$> results → agency_total slug results = 0.
Proof.
  induction results as [|row results IH]; [done|].
  rewrite fmap_cons, not_elem_of_cons. intros [Hne Hnot]. simpl.
  rewrite decide_False by done. by apply IH.
Qed.

(** What the loop leaves under each key: nothing for an agency without
    tuples, the sum of its contributions otherwise. *)
Lemma word_count_loop_lookup results slug :
  word_count_loop results !! slug =
  if decide (slug ∈ rg_slug <$> results)
  then Some (agency_total slug results) else None.
Proof.
  induction results as [|row results IH] using rev_ind.
  { by rewrite decide_False by set_solver. }
  rewrite word_count_loop_snoc, word_count_step_insert, fmap_app.
  rewrite agency_total_app; simpl.
  destruct (decide (rg_slug row = slug)) as [->|Hne].
  - rewrite lookup_insert_eq, IH.
    rewrite (decide_True (P := slug ∈ _ ++ _)%list) by set_solver.
    f_equal. case_decide as Hin; simpl; [lia|].
    rewrite (agency_total_absent _ _ Hin). lia.
  - rewrite lookup_insert_ne, IH by done.
    destruct (decide (slug ∈ rg_slug <$> results)).
    + rewrite decide_True by (apply elem_of_app; by left). f_equal; lia.
    + rewrite decide_False; [done|].
      rewrite elem_of_app, list_elem_of_singleton. intros [?|?]; congruence.
Qed.

Lemma tier_weight_pos chapter part : 0 < tier_weight chapter part.
Proof. unfold tier_weight. repeat case_match; lia. Qed.

End word_counts.

(** C1. [calculate_word_counts] implements the tiered multiplier model: the
    loop starts from the empty dictionary; each tuple adds its reference
    count times the weight of its tier (2000 when the part is set, else
    10000 when the chapter is set, else 50000) to the running total of its
    agency, which starts at zero for a slug not seen before; and on the
    three tuples of the "epa" scenario the estimate is exactly 140000. *)
Theorem calculate_word_counts_tiered_model :
  word_count_loop [] = ∅
  ∧ (∀ results row,
       let word_counts := word_count_loop results in
       let weight :=
         if truthy (rg_part row) then 2000
         else if truthy (rg_chapter row) then 10000
         else 50000 in
       word_count_loop (results ++ [row]) =
       <[rg_slug row :=
           default 0 (word_counts !! rg_slug row) + rg_ref_count row * weight]>
         word_counts)
  ∧ word_count_loop
      [ RefGroup "epa" 40 PyNone PyNone 2;
        RefGroup "epa" 40 (PyStr "I") PyNone 3;
        RefGroup "epa" 40 (PyStr "I") (PyStr "A") 5 ] !! "epa" = Some 140000
  ∧ ECFRAnalytics.calculate_word_counts Sample.conn !! "epa" = Some 140000.
Proof.
  split_and!.
  - reflexivity.
  - intros results row. cbv zeta.
    rewrite word_count_loop_snoc, word_count_step_insert.
    reflexivity.
  - vm_compute. reflexivity.
  - vm_compute. reflexivity.
Qed.

(** C2, as stated: a tuple whose chapter and part are both set (not [None])
    does not always contribute at the part weight. With the chapter "I" and
    the empty string as part, one reference counts 10000 words. *)
Lemma tier_by_presence_fails :
  ¬ (∀ slug title chapter part ref_count,
       chapter ≠ PyNone → part ≠ PyNone →
       word_count_loop [RefGroup slug title chapter part ref_count] !! slug
       = Some (ref_count * 2000)).
Proof.
  intros H.
  assert (E := H "epa" 40 (PyStr "I") (PyStr "") 1).
  vm_compute in E. discriminate E; discriminate.
Qed.

(** C2, amended: with "set" read as Python truth (not [None], not empty, not
    zero), exactly one of the three tiers applies to every tuple and selects
    the weight it contributes with: the part tier (2000) when the part is
    true, the chapter tier (10000) when the part is false and the chapter
    true, the title tier (50000) when both are false. A tuple with a true
    part contributes at 2000 whatever its chapter. *)
Theorem tier_exclusive_by_truth (word_counts : gmap string Z) (row : ref_group) :
  let part_tier := truthy (rg_part row) = true in
  let chapter_tier :=
    truthy (rg_part row) = false ∧ truthy (rg_chapter row) = true in
  let title_tier :=
    truthy (rg_part row) = false ∧ truthy (rg_chapter row) = false in
  let adds weight :=
    word_count_step word_counts row =
    <[rg_slug row :=
        default 0 (word_counts !! rg_slug row) + rg_ref_count row * weight]>
      word_counts in
  (part_tier ∧ ¬ chapter_tier ∧ ¬ title_tier ∧ adds 2000)
  ∨ (¬ part_tier ∧ chapter_tier ∧ ¬ title_tier ∧ adds 10000)
  ∨ (¬ part_tier ∧ ¬ chapter_tier ∧ title_tier ∧ adds 50000).
Proof.
  cbv zeta. rewrite word_count_step_insert. unfold contribution, tier_weight.
  destruct (truthy (rg_part row)), (truthy (rg_chapter row));
    [left | left | right; left | right; right]; intuition congruence.
Qed.

(** C7. For a fixed agency and a fixed tier, replacing the reference count of
    one tuple by a strictly larger one strictly increases the estimate of
    that agency, by exactly the difference of the counts times the weight of
    the tier, and leaves the estimates of the other agencies alone. *)
Theorem word_count_monotone_linear
    (before after : list ref_group) (slug : string) (title : Z)
    (chapter part : value) (n n' : Z) :
  n < n' →
  let weight :=
    if truthy part then 2000 else if truthy chapter then 10000 else 50000 in
  let old := word_count_loop (before ++ RefGroup slug title chapter part n :: after) in
  let new := word_count_loop (before ++ RefGroup slug title chapter part n' :: after) in
  (∃ v v', old !! slug = Some v ∧ new !! slug = Some v'
           ∧ v < v' ∧ v' - v = (n' - n) * weight)
  ∧ (∀ other, other ≠ slug → new !! other = old !! other).
Proof.
  intros Hlt. cbv zeta.
  assert (Hw : 0 < tier_weight chapter part) by apply tier_weight_pos.
  unfold tier_weight in Hw.
  split.
  - do 2 eexists. rewrite !word_count_loop_lookup.
    rewrite !decide_True
      by (rewrite fmap_app, fmap_cons, elem_of_app, elem_of_cons; auto).
    split_and!; [reflexivity..| |];
      rewrite !agency_total_app; simpl; rewrite !decide_True by done;
      unfold contribution, tier_weight; simpl; nia.
  - intros other Hne. rewrite !word_count_loop_lookup.
    rewrite !fmap_app, !fmap_cons, !agency_total_app; simpl.
    rewrite !(decide_False (P := slug = other)) by done.
    reflexivity.
Qed.

Lemma word_count_monotone_linear_witness :
  2 < 3 ∧
  ∃ v v', word_count_loop
            ([RefGroup "epa" 40 PyNone PyNone 1]
               ++ RefGroup "epa" 40 (PyStr "I") PyNone 2 :: []) !! "epa" = Some v
          ∧ word_count_loop
              ([RefGroup "epa" 40 PyNone PyNone 1]
                 ++ RefGroup "epa" 40 (PyStr "I") PyNone 3 :: []) !! "epa" = Some v'
          ∧ v < v' ∧ v' - v = (3 - 2) * 10000.
Proof.
  split; [lia|].
  apply (word_count_monotone_linear
           [RefGroup "epa" 40 PyNone PyNone 1] [] "epa" 40 (PyStr "I") PyNone 2 3).
  lia.
Defined.

(** C10. Tier selection goes by truth value, not by a test against [None]:
    a tuple whose part is the empty string or 0 does not take the part
    tier, it contributes at the chapter weight when its chapter is true and
    at the title weight otherwise; and when the part is false, a chapter
    that is the empty string, 0 or [None] selects the title tier. *)
Theorem tier_selected_by_truth_value (word_counts : gmap string Z) (row : ref_group) :
  let adds weight :=
    word_count_step word_counts row =
    <[rg_slug row :=
        default 0 (word_counts !! rg_slug row) + rg_ref_count row * weight]>
      word_counts in
  (rg_part row = PyStr "" ∨ rg_part row = PyInt 0 →
     adds (if truthy (rg_chapter row) then 10000 else 50000))
  ∧ (rg_part row = PyStr "" ∨ rg_part row = PyInt 0 ∨ rg_part row = PyNone →
     rg_chapter row = PyStr "" ∨ rg_chapter row = PyInt 0
       ∨ rg_chapter row = PyNone →
     adds 50000).
Proof.
  cbv zeta. rewrite word_count_step_insert. unfold contribution, tier_weight.
  split.
  - intros [-> | ->]; reflexivity.
  - intros [-> | [-> | ->]] [-> | [-> | ->]]; reflexivity.
Qed.

Lemma tier_selected_by_truth_value_witness :
  word_count_step {[ "epa" := 7 ]} (RefGroup "epa" 40 (PyStr "I") (PyStr "") 3)
  = <[ "epa" := default 0 (({[ "epa" := 7 ]} : gmap string Z) !! "epa")
                + 3 * 10000 ]> {[ "epa" := 7 ]}
  ∧ word_count_step ∅ (RefGroup "epa" 40 (PyInt 0) (PyInt 0) 3)
    = <[ "epa" := default 0 ((∅ : gmap string Z) !! "epa") + 3 * 50000 ]> ∅.
Proof.
  split.
  - apply (proj1 (tier_selected_by_truth_value
                    {[ "epa" := 7 ]} (RefGroup "epa" 40 (PyStr "I") (PyStr "") 3))).
    left; reflexivity.
  - apply (proj2 (tier_selected_by_truth_value
                    ∅ (RefGroup "epa" 40 (PyInt 0) (PyInt 0) 3))).
    + right; left; reflexivity.
    + right; left; reflexivity.
Defined.

(** * Properties of the relational operators *)

Lemma StronglySorted_weaken {A} (R1 R2 : relation A) (l : list A) :
  (∀ a b, R1 a b → R2 a b) → StronglySorted R1 l → StronglySorted R2 l.
Proof.
  intros Himpl Hsorted.
  induction Hsorted as [|a l _ IH Hall]; constructor; [done|].
  eapply Forall_impl; [exact Hall | auto].
Qed.

Section sql.

Context {A : Type}.
Implicit Types (rows : list A) (before : A → A → bool).

Lemma order_by_perm before rows : Sql.order_by before rows ≡ₚ rows.
Proof. apply merge_sort_Permutation. Qed.

Lemma elem_of_order_by before rows x :
  x ∈ Sql.order_by before rows ↔ x ∈ rows.
Proof. by rewrite order_by_perm. Qed.

(** A comparison that is total and transitive leaves every pair of the
    result in order. *)
Lemma order_by_sorted before rows :
  (∀ a b, before a b = true ∨ before b a = true) →
  (∀ a b c, before a b = true → before b c = true → before a c = true) →
  StronglySorted (λ a b, before a b = true) (Sql.order_by before rows).
Proof.
  intros Htotal Htrans.
  assert (Transitive (λ a b, Is_true (before a b))).
  { intros a b c ?%Is_true_true ?%Is_true_true. apply Is_true_true. eauto. }
  assert (Total (λ a b, Is_true (before a b))).
  { intros a b. rewrite !Is_true_true. apply Htotal. }
  eapply StronglySorted_weaken;
    [|apply (StronglySorted_merge_sort (λ a b, Is_true (before a b)))].
  intros a b. apply Is_true_true.
Qed.

Lemma limit_length k rows : (length (Sql.limit k rows) ≤ N.to_nat k)%nat.
Proof. unfold Sql.limit. rewrite length_take. lia. Qed.

Lemma limit_prefix k rows : Sql.limit k rows `prefix_of` rows.
Proof. apply prefix_take. Qed.

Lemma elem_of_limit k rows x : x ∈ Sql.limit k rows → x ∈ rows.
Proof. apply subseteq_take. Qed.

Lemma elem_of_where (p : A → bool) rows x :
  x ∈ Sql.where_ p rows ↔ x ∈ rows ∧ p x = true.
Proof.
  unfold Sql.where_. rewrite !list_elem_of_In. apply filter_In.
Qed.

End sql.

Lemma prefix_fmap {A B} (f : A → B) (l1 l2 : list A) :
  l1 `prefix_of` l2 → (f <$> l1) `prefix_of` (f <$> l2).
Proof. intros [k ->]. exists (f <$> k). apply fmap_app. Qed.

Lemma to_dicts_length columns results :
  length (ECFRAnalytics.to_dicts columns results) = length results.
Proof. apply length_fmap. Qed.

(** * Properties of the queries *)

Import ECFRAnalytics.

(** Every record of [get_top_agencies_by_rvi] is the six-column projection
    of a stored row that passed the [WHERE] clause. *)
Lemma top_agencies_by_rvi_origin conn limit d :
  d ∈ get_top_agencies_by_rvi conn limit →
  ∃ r, r ∈ agency_metrics conn
       ∧ 0 < AgencyMetrics.total_corrections r
       ∧ d = dict (zip rvi_columns (select_rvi r)).
Proof.
  unfold get_top_agencies_by_rvi, to_dicts, rvi_ordered.
  intros (row & -> & Hrow)%list_elem_of_fmap.
  apply list_elem_of_fmap in Hrow as (r & -> & Hr).
  apply elem_of_limit, elem_of_order_by, elem_of_where in Hr as [Hin Hpos].
  exists r. split_and!; [done| |done].
  unfold has_corrections in Hpos. lia.
Qed.

(** C3. No record returned by [get_top_agencies_by_rvi] has
    [total_corrections] equal to 0, whatever the table and the limit: the
    field holds a positive integer. On the two-row table of agencies "a"
    (no corrections) and "b" (10 corrections), the call with limit 10
    returns the record of "b" alone. *)
Theorem top_agencies_by_rvi_have_corrections :
  (∀ conn limit,
     Forall (λ d, d !! "total_corrections" ≠ Some (PyInt 0)
                  ∧ ∃ n, d !! "total_corrections" = Some (PyInt n) ∧ 0 < n)
            (get_top_agencies_by_rvi conn limit))
  ∧ agency_metrics Sample.conn = [Sample.agency_a; Sample.agency_b]
  ∧ get_top_agencies_by_rvi Sample.conn 10 =
    [ dict [ ("slug", PyStr "b"); ("name", PyStr "Agency B");
             ("short_name", PyStr "B"); ("total_corrections", PyInt 10);
             ("cfr_reference_count", PyInt 2);
             ("rvi", PyFloat Sample.d5_0) ] ].
Proof.
  split_and!.
  - intros conn limit. apply Forall_forall. intros d Hd.
    apply top_agencies_by_rvi_origin in Hd as (r & _ & Hpos & ->).
    assert (dict (zip rvi_columns (select_rvi r)) !! "total_corrections"
            = Some (PyInt (AgencyMetrics.total_corrections r))) as ->
      by (vm_compute; reflexivity).
    split; [intros [= E]; lia | eauto].
  - reflexivity.
  - compute_done.
Qed.

(** The keys of a dictionary built from explicit pairs. *)
Ltac dict_keys :=
  unfold dict; simpl;
  rewrite ?lookup_insert_is_Some', ?elem_of_cons, elem_of_nil;
  let H := fresh in
  split; intros H;
  [ repeat (destruct H as [<- | H];
            [repeat ((left; reflexivity) || right)|]);
    by apply lookup_empty_is_Some in H
  | repeat (destruct H as [-> | H];
            [repeat ((left; reflexivity) || right)|]);
    done ].

Lemma rvi_record_keys (r : AgencyMetrics.row) (column : string) :
  is_Some (dict (zip rvi_columns (select_rvi r)) !! column)
  ↔ column ∈ rvi_columns.
Proof. unfold rvi_columns, select_rvi. dict_keys. Qed.

Lemma agency_metric_record_keys conn (r : AgencyMetrics.row) (column : string) :
  is_Some (dict (zip agency_metric_columns (select_agency_metric conn r)) !! column)
  ↔ column ∈ agency_metric_columns.
Proof. unfold agency_metric_columns, select_agency_metric. dict_keys. Qed.

(** C9, as stated: the records of [get_top_agencies_by_rvi] do not carry
    every field of an agency metric. On the sample table the record of "b"
    has no [parent_slug]. *)
Lemma top_agencies_by_rvi_not_full_metric :
  ¬ (∀ conn limit,
       Forall (λ d, ∀ column, column ∈ agency_metric_columns →
                              is_Some (d !! column))
              (get_top_agencies_by_rvi conn limit)).
Proof.
  intros H. specialize (H Sample.conn 10%N).
  rewrite Forall_forall in H.
  destruct (H (dict (zip rvi_columns (select_rvi Sample.agency_b))))
    with (column := "parent_slug") as [v Hv].
  - compute_done.
  - compute_done.
  - vm_compute in Hv. discriminate Hv.
Qed.

(** C9, amended: every record returned by [get_top_agencies_by_rvi] carries
    exactly six fields, [slug], [name], [short_name], [total_corrections],
    [cfr_reference_count] and [rvi], taken from one stored row; it has no
    [parent_slug], [child_count], [years_with_corrections],
    [first_correction_year], [last_correction_year] or
    [avg_correction_lag_days]. *)
Theorem top_agencies_by_rvi_six_fields conn limit :
  Forall
    (λ d,
       (∀ column,
          is_Some (d !! column)
          ↔ column ∈ [ "slug"; "name"; "short_name"; "total_corrections";
                       "cfr_reference_count"; "rvi" ])
       ∧ ∃ r, r ∈ agency_metrics conn
              ∧ d !! "slug" = Some (PyStr (AgencyMetrics.slug r))
              ∧ d !! "name" = Some (PyStr (AgencyMetrics.name r))
              ∧ d !! "short_name"
                = Some (nullable PyStr (AgencyMetrics.short_name r))
              ∧ d !! "total_corrections"
                = Some (PyInt (AgencyMetrics.total_corrections r))
              ∧ d !! "cfr_reference_count"
                = Some (PyInt (AgencyMetrics.cfr_reference_count r))
              ∧ d !! "rvi" = Some (nullable PyFloat (AgencyMetrics.rvi r)))
    (get_top_agencies_by_rvi conn limit).
Proof.
  apply Forall_forall. intros d Hd.
  apply top_agencies_by_rvi_origin in Hd as (r & Hin & _ & ->).
  split; [apply rvi_record_keys|].
  exists r. split_and!; [done|..]; vm_compute; reflexivity.
Qed.

(** C4, as stated: a limit of 0 does not bound [get_agency_metrics]. On the
    sample table of two agencies the call with limit 0 returns two
    records. *)
Lemma agency_metrics_limit_zero_unbounded :
  ¬ (∀ conn k,
       (length (get_agency_metrics conn (Some k)) ≤ N.to_nat k)%nat).
Proof.
  intros H. specialize (H Sample.conn 0%N).
  vm_compute in H. lia.
Qed.

(** ** Lookup of one agency *)

Lemma fetchone_where_None {A} (p : A → bool) (rows : list A) :
  Sql.fetchone (Sql.where_ p rows) = None ↔ ∀ r, r ∈ rows → p r = false.
Proof.
  unfold Sql.fetchone. rewrite head_None. split.
  - intros Hnil r Hin. apply not_true_is_false. intros Hp.
    assert (r ∈ Sql.where_ p rows) as Hr by by apply elem_of_where.
    rewrite Hnil in Hr. by apply elem_of_nil in Hr.
  - intros Hnone. destruct (Sql.where_ p rows) as [|r l] eqn:E; [done|].
    assert (r ∈ Sql.where_ p rows) as Hr by (rewrite E; left).
    apply elem_of_where in Hr as [Hin Hp]. rewrite (Hnone r Hin) in Hp.
    discriminate.
Qed.

Lemma fetchone_where_Some {A} (p : A → bool) (rows : list A) (r : A) :
  Sql.fetchone (Sql.where_ p rows) = Some r → r ∈ rows ∧ p r = true.
Proof.
  unfold Sql.fetchone. intros [l E]%head_Some.
  apply elem_of_where. rewrite E. left.
Qed.

Lemma get_agency_detail_fetch conn slug :
  get_agency_detail conn slug =
  (λ r, dict (zip agency_metric_columns (select_agency_metric conn r)))
    <$> Sql.fetchone
          (Sql.where_ (λ r, String.eqb (AgencyMetrics.slug r) slug)
                      (agency_metrics conn)).
Proof.
  unfold get_agency_detail, Sql.fetchone.
  by destruct (Sql.where_ _ _).
Qed.

(** C5. [get_agency_detail] looks one agency up by its slug. When exactly
    one stored row has the slug, the result is the record of that row with
    its twelve fields, [avg_correction_lag_days] being rounded to one
    decimal by the engine; when no row has the slug, the result is [None].
    A record that is returned always has the twelve fields and comes from
    a stored row with that slug: there is no partial or default record, and
    the call is total. *)
Theorem get_agency_detail_lookup conn (slug : string) :
  (∀ r, r ∈ agency_metrics conn →
        AgencyMetrics.slug r = slug →
        (∀ r', r' ∈ agency_metrics conn → AgencyMetrics.slug r' = slug → r' = r) →
        get_agency_detail conn slug =
        Some (dict
          [ ("slug", PyStr (AgencyMetrics.slug r));
            ("name", PyStr (AgencyMetrics.name r));
            ("short_name", nullable PyStr (AgencyMetrics.short_name r));
            ("parent_slug", nullable PyStr (AgencyMetrics.parent_slug r));
            ("cfr_reference_count", PyInt (AgencyMetrics.cfr_reference_count r));
            ("child_count", PyInt (AgencyMetrics.child_count r));
            ("total_corrections", PyInt (AgencyMetrics.total_corrections r));
            ("years_with_corrections",
              PyInt (AgencyMetrics.years_with_corrections r));
            ("first_correction_year",
              nullable PyInt (AgencyMetrics.first_correction_year r));
            ("last_correction_year",
              nullable PyInt (AgencyMetrics.last_correction_year r));
            ("avg_correction_lag_days",
              nullable PyFloat
                ((λ d, sql_round conn d 1)
                   <$> AgencyMetrics.avg_correction_lag_days r));
            ("rvi", nullable PyFloat (AgencyMetrics.rvi r)) ]))
  ∧ ((∀ r, r ∈ agency_metrics conn → AgencyMetrics.slug r ≠ slug) →
     get_agency_detail conn slug = None)
  ∧ (∀ d, get_agency_detail conn slug = Some d →
          (∀ column, is_Some (d !! column) ↔ column ∈ agency_metric_columns)
          ∧ ∃ r, r ∈ agency_metrics conn ∧ AgencyMetrics.slug r = slug
                 ∧ d = dict (zip agency_metric_columns
                                 (select_agency_metric conn r))).
Proof.
  rewrite get_agency_detail_fetch. split_and!.
  - intros r Hin Hslug Hunique.
    destruct (Sql.fetchone _) as [r'|] eqn:E.
    + apply fetchone_where_Some in E as [Hin' Hslug'%String.eqb_eq].
      by rewrite (Hunique r' Hin' Hslug').
    + rewrite fetchone_where_None in E. specialize (E r Hin).
      apply String.eqb_neq in E. done.
  - intros Hnone.
    assert (Sql.fetchone
              (Sql.where_ (λ r, String.eqb (AgencyMetrics.slug r) slug)
                          (agency_metrics conn)) = None) as ->; [|done].
    apply fetchone_where_None. intros r Hin.
    by apply String.eqb_neq, Hnone.
  - intros d Hd.
    destruct (Sql.fetchone _) as [r|] eqn:E; [|discriminate].
    injection Hd as <-.
    apply fetchone_where_Some in E as [Hin Hslug%String.eqb_eq].
    split; [intros column; apply agency_metric_record_keys | eauto].
Qed.

Lemma get_agency_detail_lookup_witness :
  get_agency_detail Sample.conn "b" =
  Some (dict
    [ ("slug", PyStr "b"); ("name", PyStr "Agency B");
      ("short_name", PyStr "B"); ("parent_slug", PyStr "a");
      ("cfr_reference_count", PyInt 2); ("child_count", PyInt 0);
      ("total_corrections", PyInt 10); ("years_with_corrections", PyInt 3);
      ("first_correction_year", PyInt 2018);
      ("last_correction_year", PyInt 2020);
      ("avg_correction_lag_days", PyFloat Sample.d12_5);
      ("rvi", PyFloat Sample.d5_0) ])
  ∧ get_agency_detail Sample.conn "zz" = None.
Proof.
  split.
  - apply (proj1 (get_agency_detail_lookup Sample.conn "b") Sample.agency_b).
    + apply list_elem_of_further, list_elem_of_here.
    + reflexivity.
    + intros r' [-> | [-> | []%elem_of_nil]%elem_of_cons]%elem_of_cons;
        [discriminate | reflexivity].
  - apply (proj1 (proj2 (get_agency_detail_lookup Sample.conn "zz"))).
    intros r' [-> | [-> | []%elem_of_nil]%elem_of_cons]%elem_of_cons;
      discriminate.
Defined.

(** ** Ordering of the listings *)

(** Boolean comparisons on integers, read as propositions. *)
Ltac leb_prop :=
  repeat first
    [ rewrite orb_true_iff in * | rewrite andb_true_iff in *
    | rewrite Z.leb_le in * | rewrite Z.ltb_lt in * | rewrite Z.eqb_eq in * ].

Section comparisons.

Lemma total_corrections_desc_total a b :
  total_corrections_desc a b = true ∨ total_corrections_desc b a = true.
Proof. unfold total_corrections_desc. leb_prop. lia. Qed.

Lemma total_corrections_desc_trans a b c :
  total_corrections_desc a b = true → total_corrections_desc b c = true →
  total_corrections_desc a c = true.
Proof. unfold total_corrections_desc. leb_prop. lia. Qed.

Lemma year_asc_total a b : year_asc a b = true ∨ year_asc b a = true.
Proof. unfold year_asc. leb_prop. lia. Qed.

Lemma year_asc_trans a b c :
  year_asc a b = true → year_asc b c = true → year_asc a c = true.
Proof. unfold year_asc. leb_prop. lia. Qed.

Lemma year_month_asc_total a b :
  year_month_asc a b = true ∨ year_month_asc b a = true.
Proof. unfold year_month_asc. leb_prop. lia. Qed.

Lemma year_month_asc_trans a b c :
  year_month_asc a b = true → year_month_asc b c = true →
  year_month_asc a c = true.
Proof. unfold year_month_asc. leb_prop. lia. Qed.

Lemma date_leb_total a b : Sql.date_leb a b = true ∨ Sql.date_leb b a = true.
Proof.
  unfold Sql.date_leb. leb_prop.
  destruct (Z.lt_trichotomy (date_year a) (date_year b)) as [?|[?|?]];
    destruct (Z.lt_trichotomy (date_month a) (date_month b)) as [?|[?|?]];
    destruct (Z.le_ge_cases (date_day a) (date_day b)); lia.
Qed.

Lemma date_leb_trans a b c :
  Sql.date_leb a b = true → Sql.date_leb b c = true →
  Sql.date_leb a c = true.
Proof.
  unfold Sql.date_leb. leb_prop.
  intros [?|[? [?|[? ?]]]] [?|[? [?|[? ?]]]]; lia.
Qed.

Lemma year_corrected_desc_total a b :
  year_corrected_desc a b = true ∨ year_corrected_desc b a = true.
Proof.
  unfold year_corrected_desc, Sql.desc_nulls_last.
  destruct (Correction.error_corrected a) as [da|],
           (Correction.error_corrected b) as [db|];
    try pose proof (date_leb_total da db);
    leb_prop;
    destruct (Z.lt_trichotomy (Correction.year a) (Correction.year b))
      as [?|[?|?]];
    intuition (try reflexivity; try lia).
Qed.

Lemma year_corrected_desc_trans a b c :
  year_corrected_desc a b = true → year_corrected_desc b c = true →
  year_corrected_desc a c = true.
Proof.
  unfold year_corrected_desc, Sql.desc_nulls_last.
  destruct (Correction.error_corrected a) as [da|],
           (Correction.error_corrected b) as [db|],
           (Correction.error_corrected c) as [dc|];
    try pose proof (date_leb_trans dc db da);
    leb_prop;
    intuition (try discriminate; try reflexivity; try lia).
Qed.

End comparisons.

(** C6. The listings come out in order: [get_correction_trends_yearly] by
    non-decreasing [year], [get_time_series_data] by non-decreasing
    [(year, month)] in lexicographic order, and [get_agency_metrics], with
    or without a limit, by non-increasing [total_corrections]; in each case
    the order holds between every two records of the listing, not only
    between neighbours. *)
Theorem listings_are_ordered conn (limit : option N) :
  (∃ years : list Z,
     (λ d, d !! "year") <$> get_correction_trends_yearly conn
     = (λ y, Some (PyInt y)) <$> years
     ∧ StronglySorted Z.le years)
  ∧ (∃ months : list (Z * Z),
       (λ d, (d !! "year", d !! "month")) <$> get_time_series_data conn
       = (λ ym, (Some (PyInt ym.1), Some (PyInt ym.2))) <$> months
       ∧ StronglySorted
           (λ a b, a.1 < b.1 ∨ (a.1 = b.1 ∧ a.2 ≤ b.2)) months)
  ∧ (∃ totals : list Z,
       (λ d, d !! "total_corrections") <$> get_agency_metrics conn limit
       = (λ n, Some (PyInt n)) <$> totals
       ∧ StronglySorted (λ a b, b ≤ a) totals).
Proof.
  split_and!.
  - exists (YearlyTrend.year
              <$> Sql.order_by year_asc (correction_trends_yearly conn)).
    split.
    + unfold get_correction_trends_yearly, to_dicts.
      rewrite <- !list_fmap_compose. by apply list_fmap_ext.
    + eapply StronglySorted_fmap;
        [|apply order_by_sorted; [apply year_asc_total | apply year_asc_trans]].
      intros a b. unfold year_asc. by leb_prop.
  - exists ((λ r, (TimeSeries.year r, TimeSeries.month r))
              <$> Sql.order_by year_month_asc (correction_time_series conn)).
    split.
    + unfold get_time_series_data, to_dicts.
      rewrite <- !list_fmap_compose. by apply list_fmap_ext.
    + eapply StronglySorted_fmap;
        [|apply order_by_sorted;
          [apply year_month_asc_total | apply year_month_asc_trans]].
      intros a b. unfold year_month_asc. simpl. leb_prop. lia.
  - set (ordered := Sql.order_by total_corrections_desc (agency_metrics conn)).
    exists (AgencyMetrics.total_corrections
              <$> (if limit_given limit
                   then Sql.limit (default 0%N limit) ordered else ordered)).
    split.
    + unfold get_agency_metrics, to_dicts. fold ordered.
      rewrite <- !list_fmap_compose. by apply list_fmap_ext.
    + assert (StronglySorted (λ a b, total_corrections_desc a b = true) ordered)
        as Hsorted
        by (apply order_by_sorted;
            [ apply total_corrections_desc_total
            | apply total_corrections_desc_trans ]).
      eapply StronglySorted_fmap with
        (R1 := λ a b, total_corrections_desc a b = true).
      { intros a b. unfold total_corrections_desc. by leb_prop. }
      destruct (limit_given limit); [|done].
      unfold Sql.limit.
      rewrite <- (take_drop (N.to_nat (default 0%N limit)) ordered) in Hsorted.
      by apply StronglySorted_app_1_l in Hsorted.
Qed.

(** ** Corrections of an agency *)

Section join.

(** A title occurs at most once among distinct titles. *)
Lemma filter_eqb_NoDup (t : Z) (titles : list Z) :
  NoDup titles →
  List.filter (λ y, t =? y) titles = if decide (t ∈ titles) then [t] else [].
Proof.
  induction 1 as [|y titles Hy _ IH]; [done|].
  simpl. destruct (Z.eqb_spec t y) as [->|Hne].
  - rewrite decide_True by left. f_equal.
    rewrite IH. by rewrite decide_False.
  - rewrite IH. destruct (decide (t ∈ titles)).
    + rewrite decide_True; [done|by right].
    + rewrite decide_False; [done|].
      rewrite elem_of_cons. intros [?|?]; done.
Qed.

(** Joining on distinct titles keeps each correction once or drops it. *)
Lemma join_distinct_titles (corrections : list Correction.row) (titles : list Z) :
  NoDup titles →
  fst <$> Sql.inner_join (λ c t, Correction.title c =? t) corrections titles
  = List.filter (λ c, bool_decide (Correction.title c ∈ titles)) corrections.
Proof.
  intros Hdistinct. unfold Sql.inner_join.
  induction corrections as [|c corrections IH]; [done|].
  rewrite bind_cons, fmap_app, IH. simpl.
  rewrite filter_eqb_NoDup by done.
  destruct (decide (Correction.title c ∈ titles)).
  - by rewrite bool_decide_eq_true_2.
  - by rewrite bool_decide_eq_false_2.
Qed.

Lemma elem_of_agency_titles conn slug (t : Z) :
  t ∈ agency_titles conn slug
  ↔ existsb (λ r, String.eqb (CfrReference.agency_slug r) slug
                  && (CfrReference.title r =? t))
            (cfr_references conn) = true.
Proof.
  unfold agency_titles, Sql.distinct.
  rewrite elem_of_remove_dups, list_elem_of_fmap, existsb_exists.
  split.
  - intros (r & -> & [Hin Hslug]%elem_of_where).
    exists r. rewrite <- list_elem_of_In, Hslug, Z.eqb_refl. done.
  - intros (r & Hin%list_elem_of_In & [Hslug Ht%Z.eqb_eq]%andb_true_iff).
    exists r. split; [done|]. by apply elem_of_where.
Qed.

(** The rows fed to [ORDER BY] are the corrections whose title is
    referenced by the agency, each once, in storage order. *)
Lemma agency_corrections_joined conn slug :
  fst <$> Sql.inner_join (λ c t, Correction.title c =? t)
            (corrections_parsed conn) (agency_titles conn slug)
  = List.filter
      (λ c, existsb (λ r, String.eqb (CfrReference.agency_slug r) slug
                          && (CfrReference.title r =? Correction.title c))
                    (cfr_references conn))
      (corrections_parsed conn).
Proof.
  rewrite join_distinct_titles by apply NoDup_remove_dups.
  apply List.filter_ext. intros c.
  apply eq_true_iff_eq.
  rewrite bool_decide_eq_true. apply elem_of_agency_titles.
Qed.

End join.

(** C8. [get_corrections_for_agency] returns the corrections whose CFR title
    is one of the titles referenced by the agency, each once, sorted by
    year descending and then by correction date descending, cut to the
    first [limit] records. For an agency with corrections in the years
    2019, 2020 and 2018, the call with limit 2 returns the records of 2020
    and 2019, in that order. *)
Theorem corrections_for_agency_sorted_then_limited :
  (∀ conn slug limit,
     ∃ matching : list Correction.row,
       matching
       ≡ₚ List.filter
            (λ c, existsb
                    (λ r, String.eqb (CfrReference.agency_slug r) slug
                          && (CfrReference.title r =? Correction.title c))
                    (cfr_references conn))
            (corrections_parsed conn)
       ∧ StronglySorted
           (λ a b,
              Correction.year b < Correction.year a
              ∨ (Correction.year a = Correction.year b
                 ∧ Sql.desc_nulls_last Sql.date_leb
                     (Correction.error_corrected a)
                     (Correction.error_corrected b) = true))
           matching
       ∧ get_corrections_for_agency conn slug limit
         = to_dicts correction_columns
             (select_correction <$> take (N.to_nat limit) matching))
  ∧ (Correction.year <$> corrections_parsed Sample.conn = [2019; 2020; 2018; 2021]
     ∧ (λ d, d !! "year") <$> get_corrections_for_agency Sample.conn "epa" 2
       = [Some (PyInt 2020); Some (PyInt 2019)]
     ∧ (λ d, d !! "ecfr_id") <$> get_corrections_for_agency Sample.conn "epa" 2
       = [Some (PyInt 2); Some (PyInt 1)]).
Proof.
  split.
  - intros conn slug limit.
    exists (agency_corrections_ordered conn slug). split_and!.
    + unfold agency_corrections_ordered.
      rewrite order_by_perm. by rewrite agency_corrections_joined.
    + eapply StronglySorted_weaken;
        [|apply order_by_sorted;
          [apply year_corrected_desc_total | apply year_corrected_desc_trans]].
      intros a b. unfold year_corrected_desc. leb_prop. tauto.
    + reflexivity.
  - split_and!; [reflexivity | compute_done..].
Qed.

(** * The estimate in terms of the stored references *)

Section grouping.

Local Abbreviation to_group :=
  (λ g : string * Z * value * value * Z,
     let '(slug, title, chapter, part, ref_count) := g in
     RefGroup slug title chapter part ref_count).

Local Abbreviation key_weight key := (tier_weight (key.1.2) (key.2)).

Implicit Types (key : string * Z * value * value)
  (groups : list (string * Z * value * value * Z))
  (refs : list CfrReference.row).

Lemma agency_total_count_into slug key groups :
  agency_total slug (to_group <$> Sql.count_into key groups)
  = agency_total slug (to_group <$> groups)
    + (if decide (key.1.1.1 = slug) then key_weight key else 0).
Proof.
  destruct key as [[[s t] c] p].
  induction groups as [|[[[[s' t'] c'] p'] n] groups IH]; simpl.
  - unfold contribution; simpl. repeat case_decide; try ring; congruence.
  - destruct (decide ((s', t', c', p') = (s, t, c, p))) as [[= -> -> -> ->]|Hne];
      simpl.
    + unfold contribution; simpl. repeat case_decide; try ring; congruence.
    + unfold fmap in IH |- *. rewrite IH. simpl.
      repeat case_decide; try ring; congruence.
Qed.

Lemma agency_total_groups slug refs groups :
  agency_total slug
    (to_group
       <$> fold_left (λ groups r, Sql.count_into (reference_key r) groups)
             refs groups)
  = agency_total slug (to_group <$> groups) + reference_total slug refs.
Proof.
  revert groups. induction refs as [|r refs IH]; intros groups; simpl; [lia|].
  rewrite IH, agency_total_count_into. unfold reference_weight; simpl.
  case_decide; lia.
Qed.

Lemma group_slugs_count_into slug key groups :
  slug ∈ rg_slug <$> (to_group <$> Sql.count_into key groups)
  ↔ slug = key.1.1.1 ∨ slug ∈ rg_slug <$> (to_group <$> groups).
Proof.
  destruct key as [[[s t] c] p].
  induction groups as [|[[[[s' t'] c'] p'] n] groups IH]; simpl.
  - rewrite list_elem_of_singleton, elem_of_nil. tauto.
  - destruct (decide ((s', t', c', p') = (s, t, c, p))) as [[= -> -> -> ->]|Hne];
      simpl.
    + rewrite !elem_of_cons. tauto.
    + simpl in IH. rewrite !elem_of_cons, IH. tauto.
Qed.

Lemma group_slugs slug refs groups :
  slug ∈ rg_slug
          <$> (to_group
                 <$> fold_left
                       (λ groups r, Sql.count_into (reference_key r) groups)
                       refs groups)
  ↔ slug ∈ rg_slug <$> (to_group <$> groups)
    ∨ slug ∈ CfrReference.agency_slug <$> refs.
Proof.
  revert groups. induction refs as [|r refs IH]; intros groups; simpl.
  - rewrite elem_of_nil. tauto.
  - rewrite IH, group_slugs_count_into, elem_of_cons. simpl. tauto.
Qed.

(** The dictionary of [calculate_word_counts], key by key. *)
Lemma word_counts_of_references conn slug :
  ECFRAnalytics.calculate_word_counts conn !! slug
  = if decide (slug ∈ CfrReference.agency_slug <$> cfr_references conn)
    then Some (reference_total slug (cfr_references conn)) else None.
Proof.
  unfold ECFRAnalytics.calculate_word_counts. rewrite word_count_loop_lookup.
  unfold ECFRAnalytics.reference_groups, Sql.group_by_count.
  pose proof (group_slugs slug (cfr_references conn) []) as Hslugs.
  pose proof (agency_total_groups slug (cfr_references conn) []) as Htotal.
  unfold reference_key in Hslugs, Htotal. simpl in Hslugs, Htotal.
  rewrite elem_of_nil in Hslugs.
  destruct (decide (slug ∈ CfrReference.agency_slug <$> cfr_references conn)).
  - rewrite decide_True by (apply Hslugs; by right).
    by rewrite Htotal.
  - rewrite decide_False; [done|]. rewrite Hslugs. tauto.
Qed.

End grouping.

Lemma reference_total_absent slug (refs : list CfrReference.row) :
  slug ∉ CfrReference.agency_slug <$> refs → reference_total slug refs = 0.
Proof.
  induction refs as [|r refs IH]; [done|].
  rewrite fmap_cons, not_elem_of_cons. intros [Hne Hnot]. simpl.
  rewrite decide_False by done. by apply IH.
Qed.

Lemma reference_total_bounds slug (refs : list CfrReference.row) :
  2000 * reference_count slug refs ≤ reference_total slug refs
  ∧ reference_total slug refs ≤ 50000 * reference_count slug refs
  ∧ (2000 | reference_total slug refs).
Proof.
  induction refs as [|r refs (Hlo & Hhi & q & Hq)]; simpl.
  - split_and!; [lia..|]. by exists 0.
  - case_decide; [|by split_and!; [..|exists q]].
    unfold reference_weight, tier_weight.
    repeat case_match; (split_and!; [lia..|]).
    + exists (1 + q); lia.
    + exists (5 + q); lia.
    + exists (25 + q); lia.
Qed.

Lemma reference_count_pos slug (refs : list CfrReference.row) :
  slug ∈ CfrReference.agency_slug <$> refs → 1 ≤ reference_count slug refs.
Proof.
  assert (∀ l, 0 ≤ reference_count slug l) as Hnonneg.
  { induction l; simpl; [lia|]. case_decide; lia. }
  induction refs as [|r refs IH]; [by intros ?%elem_of_nil|].
  rewrite fmap_cons, elem_of_cons. simpl. intros [->|Hin].
  - rewrite decide_True by done. specialize (Hnonneg refs). lia.
  - specialize (IH Hin). case_decide; lia.
Qed.

(** X1. The agencies listed by [calculate_word_counts] are exactly those
    with at least one stored reference: an agency without references is
    absent from the dictionary, it is not listed with 0. *)
Theorem word_counts_keys conn :
  dom (ECFRAnalytics.calculate_word_counts conn)
  = list_to_set (CfrReference.agency_slug <$> cfr_references conn).
Proof.
  apply set_eq. intros slug.
  rewrite elem_of_dom, word_counts_of_references, elem_of_list_to_set.
  case_decide; split; try done; first [by eexists | by intros [? ?]].
Qed.

(** X2. The estimate of an agency is the sum, over its stored references, of
    the weight of each reference (2000, 10000 or 50000): grouping the
    references before weighting them changes nothing. An agency that is
    absent has no reference, and the sum is 0. *)
Theorem word_counts_sum_reference_weights conn slug :
  default 0 (ECFRAnalytics.calculate_word_counts conn !! slug)
  = reference_total slug (cfr_references conn).
Proof.
  rewrite word_counts_of_references. case_decide; simpl; [done|].
  by rewrite reference_total_absent.
Qed.

(** X3. Every estimate returned by [calculate_word_counts] is a multiple of
    2000 that lies between 2000 and 50000 words per stored reference of the
    agency; an agency that is listed has at least one reference, so its
    estimate is at least 2000. *)
Theorem word_counts_bounds conn slug (v : Z) :
  ECFRAnalytics.calculate_word_counts conn !! slug = Some v →
  let n := reference_count slug (cfr_references conn) in
  1 ≤ n ∧ 2000 * n ≤ v ∧ v ≤ 50000 * n ∧ (2000 | v).
Proof.
  rewrite word_counts_of_references. case_decide as Hin; [|done].
  intros [= <-]. cbv zeta.
  pose proof (reference_total_bounds slug (cfr_references conn)).
  pose proof (reference_count_pos slug _ Hin). tauto.
Qed.

Lemma word_counts_bounds_witness :
  ECFRAnalytics.calculate_word_counts Sample.conn !! "epa" = Some 140000
  ∧ 1 ≤ reference_count "epa" (cfr_references Sample.conn)
  ∧ 2000 * reference_count "epa" (cfr_references Sample.conn) ≤ 140000
  ∧ 140000 ≤ 50000 * reference_count "epa" (cfr_references Sample.conn)
  ∧ (2000 | 140000).
Proof.
  assert (ECFRAnalytics.calculate_word_counts Sample.conn !! "epa"
          = Some 140000) as H by (vm_compute; reflexivity).
  split; [exact H|].
  exact (word_counts_bounds Sample.conn "epa" 140000 H).
Defined.

(** ** Order of the tuples and of the stored references *)

Lemma agency_total_perm slug (results results' : list ref_group) :
  results ≡ₚ results' → agency_total slug results = agency_total slug results'.
Proof.
  induction 1 as [|row l l' _ IH|row row' l|l l' l'' _ IH _ IH']; simpl.
  - done.
  - by rewrite IH.
  - repeat case_decide; ring.
  - by rewrite IH.
Qed.

Lemma reference_total_perm slug (refs refs' : list CfrReference.row) :
  refs ≡ₚ refs' → reference_total slug refs = reference_total slug refs'.
Proof.
  induction 1 as [|r l l' _ IH|r r' l|l l' l'' _ IH _ IH']; simpl.
  - done.
  - by rewrite IH.
  - repeat case_decide; ring.
  - by rewrite IH.
Qed.

(** X4. The dictionary built by the loop does not depend on the order in
    which the engine hands over the grouped tuples. *)
Theorem word_count_loop_order_irrelevant (results results' : list ref_group) :
  results ≡ₚ results' → word_count_loop results = word_count_loop results'.
Proof.
  intros Hperm. apply map_eq. intros slug.
  rewrite !word_count_loop_lookup, (agency_total_perm slug _ _ Hperm).
  assert (slug ∈ rg_slug <$> results ↔ slug ∈ rg_slug <$> results') as Hiff
    by by rewrite Hperm.
  destruct (decide (slug ∈ rg_slug <$> results)) as [Hin|Hnot].
  - by rewrite decide_True by by apply Hiff.
  - by rewrite decide_False by by rewrite <- Hiff.
Qed.

Lemma word_count_loop_order_irrelevant_witness :
  [ RefGroup "epa" 40 PyNone PyNone 2; RefGroup "usda" 7 (PyStr "I") PyNone 3 ]
    ≡ₚ [ RefGroup "usda" 7 (PyStr "I") PyNone 3; RefGroup "epa" 40 PyNone PyNone 2 ]
  ∧ word_count_loop
      [ RefGroup "epa" 40 PyNone PyNone 2; RefGroup "usda" 7 (PyStr "I") PyNone 3 ]
    = word_count_loop
        [ RefGroup "usda" 7 (PyStr "I") PyNone 3; RefGroup "epa" 40 PyNone PyNone 2 ].
Proof.
  split; [apply Permutation_swap|].
  apply word_count_loop_order_irrelevant, Permutation_swap.
Defined.

(** X5. The estimates do not depend on the order in which the references
    are stored: two databases whose [cfr_references] tables hold the same
    rows give the same dictionary. *)
Theorem word_counts_storage_order_irrelevant (conn conn' : connection) :
  cfr_references conn ≡ₚ cfr_references conn' →
  ECFRAnalytics.calculate_word_counts conn
  = ECFRAnalytics.calculate_word_counts conn'.
Proof.
  intros Hperm. apply map_eq. intros slug.
  rewrite !word_counts_of_references, (reference_total_perm slug _ _ Hperm).
  assert (slug ∈ CfrReference.agency_slug <$> cfr_references conn
          ↔ slug ∈ CfrReference.agency_slug <$> cfr_references conn') as Hiff
    by by rewrite Hperm.
  destruct (decide (slug ∈ CfrReference.agency_slug <$> cfr_references conn)).
  - by rewrite decide_True by by apply Hiff.
  - by rewrite decide_False by by rewrite <- Hiff.
Qed.

Lemma word_counts_storage_order_irrelevant_witness :
  cfr_references Fixtures.twice_b ≡ₚ cfr_references Fixtures.twice_b_reordered
  ∧ ECFRAnalytics.calculate_word_counts Fixtures.twice_b
    = ECFRAnalytics.calculate_word_counts Fixtures.twice_b_reordered.
Proof.
  assert (cfr_references Fixtures.twice_b
          ≡ₚ cfr_references Fixtures.twice_b_reordered) as Hperm.
  { simpl. etrans; [apply Permutation_skip, Permutation_swap|].
    apply Permutation_swap. }
  split; [exact Hperm|].
  exact (word_counts_storage_order_irrelevant _ _ Hperm).
Defined.

(** ** The grouping query *)

Section group_by.

Context {A K : Type} `{EqDecision K} (key_of : A → K).
Implicit Types (rows : list A) (groups : list (K * Z)) (k : K) (n : Z).

Lemma count_into_keys k groups :
  (Sql.count_into k groups).*1
  = if decide (k ∈ groups.*1) then groups.*1 else (groups.*1 ++ [k])%list.
Proof.
  induction groups as [|[k' n'] groups IH]; csimpl; [done|].
  destruct (decide (k' = k)) as [->|Hne]; csimpl.
  - by rewrite decide_True by left.
  - rewrite IH. destruct (decide (k ∈ groups.*1)).
    + by rewrite decide_True by by right.
    + rewrite decide_False; [done|].
      rewrite elem_of_cons. intros [?|?]; congruence.
Qed.

Lemma count_into_NoDup k groups :
  NoDup groups.*1 → NoDup (Sql.count_into k groups).*1.
Proof.
  intros Hnodup. rewrite count_into_keys. case_decide; [done|].
  apply NoDup_app. split_and!; [done| |apply NoDup_singleton].
  intros k' Hin ->%list_elem_of_singleton. done.
Qed.

Lemma elem_of_count_into k groups k' n :
  NoDup groups.*1 →
  ((k', n) ∈ Sql.count_into k groups)
  ↔ (k' ≠ k ∧ (k', n) ∈ groups)
    ∨ (k' = k ∧ ((k, n - 1) ∈ groups ∨ ((k ∉ groups.*1) ∧ n = 1))).
Proof.
  induction groups as [|[k0 n0] groups IH]; simpl; intros Hnodup.
  - rewrite list_elem_of_singleton, elem_of_nil. split.
    + intros [= -> ->]. right. split; [done|]. right. split; [|done].
      apply not_elem_of_nil.
    + intros [[_ []]|[-> [[]%elem_of_nil|[_ ->]]]]. done.
  - apply NoDup_cons in Hnodup as [Hfresh Hnodup].
    assert (∀ m, (k0, m) ∈ groups → False) as Hk0.
    { intros m Hm. apply Hfresh. apply list_elem_of_fmap. by exists (k0, m). }
    destruct (decide (k0 = k)) as [->|Hne].
    + rewrite !elem_of_cons. split.
      * intros [[= -> ->]|Hin].
        -- right. split; [done|]. left. left. f_equal. lia.
        -- left. split; [|by right]. intros ->. eauto.
      * intros [[Hne [[= -> ->]|Hin]]|[-> [[[= Hn]|Hin]|[Hnot _]]]].
        -- done.
        -- by right.
        -- left. f_equal. lia.
        -- exfalso. eauto.
        -- exfalso. apply Hnot. by left.
    + rewrite !elem_of_cons, (IH Hnodup). split.
      * intros [[= -> ->]|[[? ?]|[-> [Hin|[Hnot ->]]]]].
        -- left. split; [done|by left].
        -- left. split; [done|by right].
        -- right. split; [done|]. left. by right.
        -- right. split; [done|]. right. split; [|done].
           intros [?|?]; [congruence|done].
      * intros [[? [[= -> ->]|Hin]]|[-> [[[= ? ?]|Hin]|[Hnot ->]]]].
        -- by left.
        -- right. left. done.
        -- congruence.
        -- right. right. split; [done|]. by left.
        -- right. right. split; [done|]. right. split; [|done].
           intros Hin. apply Hnot. by right.
Qed.

Lemma group_by_count_snoc rows (r : A) :
  Sql.group_by_count key_of (rows ++ [r])
  = Sql.count_into (key_of r) (Sql.group_by_count key_of rows).
Proof. unfold Sql.group_by_count. by rewrite fold_left_app. Qed.

Lemma group_by_count_NoDup rows :
  NoDup (Sql.group_by_count key_of rows).*1.
Proof.
  induction rows as [|r rows IH] using rev_ind; [constructor|].
  rewrite group_by_count_snoc. by apply count_into_NoDup.
Qed.

(** One group per key that occurs, counting the rows that carry it. *)
Lemma elem_of_group_by_count rows k n :
  (k, n) ∈ Sql.group_by_count key_of rows
  ↔ n = Z.of_nat (length (filter (λ r, key_of r = k) rows)) ∧ 1 ≤ n.
Proof.
  revert k n. induction rows as [|r rows IH] using rev_ind; intros k n.
  - unfold Sql.group_by_count; simpl. rewrite elem_of_nil. lia.
  - rewrite group_by_count_snoc,
      (elem_of_count_into _ _ _ _ (group_by_count_NoDup rows)).
    rewrite filter_app, length_app, filter_cons, filter_nil.
    assert (key_of r ∉ (Sql.group_by_count key_of rows).*1
            ↔ length (filter (λ r', key_of r' = key_of r) rows) = 0%nat)
      as Habsent.
    { split.
      - intros Hnot.
        destruct (length (filter (λ r', key_of r' = key_of r) rows)) as [|m]
          eqn:E; [done|].
        exfalso. apply Hnot, list_elem_of_fmap.
        exists (key_of r, Z.of_nat (S m)). split; [done|].
        apply IH. rewrite E. lia.
      - intros Hzero [[k' m] [Hk Hin]]%list_elem_of_fmap. simpl in Hk. subst k'.
        apply IH in Hin. lia. }
    rewrite !IH, Habsent.
    destruct (decide (key_of r = k)) as [<-|Hne]; simpl.
    + split.
      * intros [[? _]|[_ [[? ?]|[? ?]]]]; [done|lia..].
      * intros [-> Hpos]. right. split; [done|].
        destruct (length (filter (λ r', key_of r' = key_of r) rows));
          [right|left]; lia.
    + split.
      * intros [[_ ?]|[? _]]; [lia|congruence].
      * intros [-> ?]. left. split; [congruence|lia].
Qed.

End group_by.

(** X6. The grouping query of [calculate_word_counts] yields one tuple per
    combination of agency, title, chapter and part that occurs among the
    stored references: no combination comes twice, each [ref_count] is the
    number of stored references with that combination and is at least 1,
    and every stored reference falls in one of the tuples. *)
Theorem reference_groups_count_references conn :
  let key_of_group g := (rg_slug g, rg_title g, rg_chapter g, rg_part g) in
  NoDup (key_of_group <$> ECFRAnalytics.reference_groups conn)
  ∧ Forall
      (λ g,
         rg_ref_count g
         = Z.of_nat
             (length (filter (λ r, reference_key r = key_of_group g)
                             (cfr_references conn)))
         ∧ 1 ≤ rg_ref_count g)
      (ECFRAnalytics.reference_groups conn)
  ∧ Forall
      (λ r, reference_key r
            ∈ key_of_group <$> ECFRAnalytics.reference_groups conn)
      (cfr_references conn).
Proof.
  cbv zeta. unfold ECFRAnalytics.reference_groups.
  set (groups := Sql.group_by_count _ _).
  assert (groups = Sql.group_by_count reference_key (cfr_references conn))
    as Hgroups by done.
  assert (∀ l : list (string * Z * value * value * Z),
            (λ g, (rg_slug g, rg_title g, rg_chapter g, rg_part g))
              <$> ((λ g, let '(slug, title, chapter, part, ref_count) := g in
                         RefGroup slug title chapter part ref_count) <$> l)
            = l.*1) as Hkeys.
  { intros l. rewrite <- list_fmap_compose. apply list_fmap_ext.
    by intros _ [[[[? ?] ?] ?] ?] _. }
  rewrite Hkeys, Hgroups. split_and!.
  - apply group_by_count_NoDup.
  - apply Forall_fmap, Forall_forall.
    intros [[[[s t] c] p] n] Hin. simpl.
    by apply (elem_of_group_by_count reference_key) in Hin.
  - apply Forall_forall. intros r Hr.
    apply list_elem_of_fmap.
    exists (reference_key r,
            Z.of_nat (length (filter (λ r', reference_key r' = reference_key r)
                                     (cfr_references conn)))).
    split; [done|]. apply elem_of_group_by_count. split; [done|].
    assert (r ∈ filter (λ r', reference_key r' = reference_key r)
                       (cfr_references conn)) as Hmem
      by by apply list_elem_of_filter.
    destruct (filter _ _); [by apply elem_of_nil in Hmem|simpl; lia].
Qed.

(** * Ranked listings *)

Section ranked.

Context {A : Type}.
Implicit Types (rows : list A) (before : A → A → bool).

(** The first [k] rows of an ordered table, and the rows left out: together
    they are the table, and no row left out ranks ahead of a row kept. *)
Lemma limit_order_by_split before rows (k : N) :
  (∀ a b, before a b = true ∨ before b a = true) →
  (∀ a b c, before a b = true → before b c = true → before a c = true) →
  let kept := Sql.limit k (Sql.order_by before rows) in
  let omitted := drop (N.to_nat k) (Sql.order_by before rows) in
  kept ++ omitted ≡ₚ rows
  ∧ length kept = Nat.min (N.to_nat k) (length rows)
  ∧ StronglySorted (λ a b, before a b = true) kept
  ∧ Forall (λ a, Forall (λ b, before a b = true) omitted) kept.
Proof.
  intros Htotal Htrans. cbv zeta. unfold Sql.limit.
  pose proof (order_by_sorted before rows Htotal Htrans) as Hsorted.
  rewrite <- (take_drop (N.to_nat k) (Sql.order_by before rows)) in Hsorted.
  split_and!.
  - rewrite take_drop. apply order_by_perm.
  - by rewrite length_take, (Permutation_length (order_by_perm before rows)).
  - by apply StronglySorted_app_1_l in Hsorted.
  - apply Forall_forall. intros a Ha. apply Forall_forall. intros b Hb.
    by apply (StronglySorted_app_1_elem_of _ _ _ a b Hsorted).
Qed.

Lemma where_filter (p : A → bool) (P : A → Prop) `{∀ x, Decision (P x)} rows :
  (∀ x, p x = true ↔ P x) → Sql.where_ p rows = filter P rows.
Proof.
  intros Hp. unfold Sql.where_.
  induction rows as [|x rows IH]; [done|]. simpl. rewrite filter_cons, IH.
  destruct (p x) eqn:E.
  - by rewrite decide_True by by apply Hp.
  - rewrite decide_False; [done|]. rewrite <- Hp. congruence.
Qed.

End ranked.

Section rvi_order.

Lemma double_leb_total a b :
  Sql.double_leb a b = true ∨ Sql.double_leb b a = true.
Proof.
  unfold Sql.double_leb. destruct (is_nan a), (is_nan b); auto.
  rewrite !Z.leb_le. lia.
Qed.

Lemma double_leb_trans a b c :
  Sql.double_leb a b = true → Sql.double_leb b c = true →
  Sql.double_leb a c = true.
Proof.
  unfold Sql.double_leb.
  destruct (is_nan a), (is_nan b), (is_nan c); try done.
  rewrite !Z.leb_le. lia.
Qed.

Lemma rvi_desc_total a b : rvi_desc a b = true ∨ rvi_desc b a = true.
Proof.
  unfold rvi_desc, Sql.desc_nulls_last.
  destruct (AgencyMetrics.rvi a) as [x|], (AgencyMetrics.rvi b) as [y|]; auto.
  destruct (double_leb_total x y); auto.
Qed.

Lemma rvi_desc_trans a b c :
  rvi_desc a b = true → rvi_desc b c = true → rvi_desc a c = true.
Proof.
  unfold rvi_desc, Sql.desc_nulls_last.
  destruct (AgencyMetrics.rvi a) as [x|], (AgencyMetrics.rvi b) as [y|],
           (AgencyMetrics.rvi c) as [z|]; try done.
  intros ? ?. by apply (double_leb_trans z y x).
Qed.

Lemma correction_count_desc_total a b :
  correction_count_desc a b = true ∨ correction_count_desc b a = true.
Proof. unfold correction_count_desc. leb_prop. lia. Qed.

Lemma correction_count_desc_trans a b c :
  correction_count_desc a b = true → correction_count_desc b c = true →
  correction_count_desc a c = true.
Proof. unfold correction_count_desc. leb_prop. lia. Qed.

End rvi_order.

(** X7. [get_correction_trends_by_title] returns the titles with the most
    corrections: the records are those of the first [limit] stored rows by
    non-increasing [correction_count], their number is the smaller of the
    limit and the size of the table, and no title left out has more
    corrections than a title returned. *)
Theorem title_trends_top_k conn (limit : N) :
  ∃ kept omitted : list TitleTrend.row,
    kept ++ omitted ≡ₚ correction_trends_by_title conn
    ∧ get_correction_trends_by_title conn limit
      = to_dicts title_columns (select_title conn <$> kept)
    ∧ (λ d, d !! "correction_count") <$> get_correction_trends_by_title conn limit
      = (λ r, Some (PyInt (TitleTrend.correction_count r))) <$> kept
    ∧ length kept
      = Nat.min (N.to_nat limit) (length (correction_trends_by_title conn))
    ∧ StronglySorted
        (λ a b, TitleTrend.correction_count b ≤ TitleTrend.correction_count a)
        kept
    ∧ Forall
        (λ a, Forall
                (λ b, TitleTrend.correction_count b
                      ≤ TitleTrend.correction_count a)
                omitted)
        kept.
Proof.
  destruct (limit_order_by_split correction_count_desc
              (correction_trends_by_title conn) limit
              correction_count_desc_total correction_count_desc_trans)
    as (Hperm & Hlen & Hsorted & Htop).
  eexists _, _. split_and!; [exact Hperm|reflexivity| |exact Hlen| |].
  - unfold get_correction_trends_by_title, to_dicts, title_trends_ordered.
    rewrite <- !list_fmap_compose. by apply list_fmap_ext.
  - eapply StronglySorted_weaken; [|exact Hsorted].
    intros a b. unfold correction_count_desc. by leb_prop.
  - eapply Forall_impl; [exact Htop|]. intros a Ha. simpl in Ha.
    eapply Forall_impl; [exact Ha|]. intros b.
    unfold correction_count_desc. by leb_prop.
Qed.

(** X8. [get_top_agencies_by_rvi] ranks the agencies that have corrections
    by RVI: the records are those of the first [limit] such agencies by
    descending [rvi], NULL last; their number is the smaller of the limit
    and the number of agencies with corrections; and no agency with
    corrections that is left out ranks ahead of one returned. *)
Theorem top_agencies_by_rvi_ranked conn (limit : N) :
  ∃ kept omitted : list AgencyMetrics.row,
    kept ++ omitted
    ≡ₚ filter (λ r, 0 < AgencyMetrics.total_corrections r) (agency_metrics conn)
    ∧ get_top_agencies_by_rvi conn limit
      = to_dicts rvi_columns (select_rvi <$> kept)
    ∧ (λ d, d !! "rvi") <$> get_top_agencies_by_rvi conn limit
      = (λ r, Some (nullable PyFloat (AgencyMetrics.rvi r))) <$> kept
    ∧ length kept
      = Nat.min (N.to_nat limit)
          (length (filter (λ r, 0 < AgencyMetrics.total_corrections r)
                          (agency_metrics conn)))
    ∧ StronglySorted
        (λ a b, Sql.desc_nulls_last Sql.double_leb
                  (AgencyMetrics.rvi a) (AgencyMetrics.rvi b) = true)
        kept
    ∧ Forall
        (λ a, Forall
                (λ b, Sql.desc_nulls_last Sql.double_leb
                        (AgencyMetrics.rvi a) (AgencyMetrics.rvi b) = true)
                omitted)
        kept.
Proof.
  destruct (limit_order_by_split rvi_desc
              (Sql.where_ has_corrections (agency_metrics conn)) limit
              rvi_desc_total rvi_desc_trans)
    as (Hperm & Hlen & Hsorted & Htop).
  assert (Sql.where_ has_corrections (agency_metrics conn)
          = filter (λ r, 0 < AgencyMetrics.total_corrections r)
                   (agency_metrics conn)) as Hfilter
    by (apply where_filter; intros r; unfold has_corrections; apply Z.ltb_lt).
  eexists _, _. split_and!;
    [rewrite <- Hfilter; exact Hperm|reflexivity|
    |rewrite <- Hfilter; exact Hlen|exact Hsorted|exact Htop].
  unfold get_top_agencies_by_rvi, to_dicts, rvi_ordered.
  rewrite <- !list_fmap_compose. by apply list_fmap_ext.
Qed.

(** X9. [get_agency_metrics] returns the agencies with the most
    corrections. With a limit [k >= 1] it keeps the first [k] stored rows by
    non-increasing [total_corrections], and no agency left out has more
    corrections than one returned; with no limit, or with limit 0, it
    returns one record per stored row and leaves nothing out. *)
Theorem agency_metrics_top_k conn (limit : option N) :
  ∃ kept omitted : list AgencyMetrics.row,
    kept ++ omitted ≡ₚ agency_metrics conn
    ∧ get_agency_metrics conn limit = agency_metric_record conn <$> kept
    ∧ length kept
      = match limit with
        | Some k =>
            if decide (k = 0%N) then length (agency_metrics conn)
            else Nat.min (N.to_nat k) (length (agency_metrics conn))
        | None => length (agency_metrics conn)
        end
    ∧ Forall
        (λ a, Forall
                (λ b, AgencyMetrics.total_corrections b
                      ≤ AgencyMetrics.total_corrections a)
                omitted)
        kept.
Proof.
  assert (∀ l, to_dicts agency_metric_columns (select_agency_metric conn <$> l)
               = agency_metric_record conn <$> l) as Hrecords.
  { intros l. unfold to_dicts. by rewrite <- list_fmap_compose. }
  unfold get_agency_metrics. rewrite Hrecords.
  destruct (limit_given limit) eqn:Hgiven.
  - destruct limit as [k|]; [|done]. simpl in Hgiven.
    apply negb_true_iff, N.eqb_neq in Hgiven.
    destruct (limit_order_by_split total_corrections_desc
                (agency_metrics conn) k
                total_corrections_desc_total total_corrections_desc_trans)
      as (Hperm & Hlen & _ & Htop).
    eexists _, _. split_and!; [exact Hperm|reflexivity| |].
    + by rewrite decide_False by done.
    + eapply Forall_impl; [exact Htop|]. intros a Ha. simpl in Ha.
      eapply Forall_impl; [exact Ha|]. intros b.
      unfold total_corrections_desc. by leb_prop.
  - exists (Sql.order_by total_corrections_desc (agency_metrics conn)), [].
    split_and!.
    + rewrite app_nil_r. apply order_by_perm.
    + reflexivity.
    + rewrite (Permutation_length (order_by_perm _ _)).
      destruct limit as [k|]; [|done]. simpl in Hgiven.
      apply negb_false_iff, N.eqb_eq in Hgiven. by rewrite decide_True.
    + apply Forall_forall. intros a _. constructor.
Qed.

(** * Shape and completeness of the listings *)

Lemma yearly_record_keys conn (r : YearlyTrend.row) (column : string) :
  is_Some (dict (zip yearly_columns (select_yearly conn r)) !! column)
  ↔ column ∈ yearly_columns.
Proof. unfold yearly_columns, select_yearly. dict_keys. Qed.

Lemma title_record_keys conn (r : TitleTrend.row) (column : string) :
  is_Some (dict (zip title_columns (select_title conn r)) !! column)
  ↔ column ∈ title_columns.
Proof. unfold title_columns, select_title. dict_keys. Qed.

Lemma time_series_record_keys conn (r : TimeSeries.row) (column : string) :
  is_Some (dict (zip time_series_columns (select_time_series conn r)) !! column)
  ↔ column ∈ time_series_columns.
Proof. unfold time_series_columns, select_time_series. dict_keys. Qed.

Lemma correction_record_keys (c : Correction.row) (column : string) :
  is_Some (dict (zip correction_columns (select_correction c)) !! column)
  ↔ column ∈ correction_columns.
Proof. unfold correction_columns, select_correction. dict_keys. Qed.

Lemma Forall_to_dicts {A} (P : gmap string value → Prop) columns
    (select : A → list value) (rows : list A) :
  (∀ r, P (dict (zip columns (select r)))) →
  Forall P (to_dicts columns (select <$> rows)).
Proof.
  intros HP. unfold to_dicts. rewrite <- list_fmap_compose.
  apply Forall_fmap, Forall_forall. intros r _. apply HP.
Qed.

(** X10. Every record of a listing carries exactly the columns of its
    query: twelve for an agency metric, six for a yearly trend, six for a
    title trend, four for a time-series point and eight for a correction;
    no key is missing and none is added. *)
Theorem listing_records_have_query_columns conn (limit : N)
    (metrics_limit : option N) (slug : string) :
  Forall (λ d, ∀ column,
            is_Some (d !! column)
            ↔ column ∈ [ "slug"; "name"; "short_name"; "parent_slug";
                         "cfr_reference_count"; "child_count";
                         "total_corrections"; "years_with_corrections";
                         "first_correction_year"; "last_correction_year";
                         "avg_correction_lag_days"; "rvi" ])
         (get_agency_metrics conn metrics_limit)
  ∧ Forall (λ d, ∀ column,
            is_Some (d !! column)
            ↔ column ∈ [ "year"; "correction_count"; "unique_titles";
                         "avg_lag_days"; "min_lag_days"; "max_lag_days" ])
         (get_correction_trends_yearly conn)
  ∧ Forall (λ d, ∀ column,
              is_Some (d !! column)
              ↔ column ∈ [ "title"; "correction_count"; "years_active";
                           "first_year"; "last_year"; "avg_lag_days" ])
           (get_correction_trends_by_title conn limit)
  ∧ Forall (λ d, ∀ column,
              is_Some (d !! column)
              ↔ column ∈ [ "year"; "month"; "correction_count";
                           "avg_lag_days" ])
           (get_time_series_data conn)
  ∧ Forall (λ d, ∀ column,
              is_Some (d !! column)
              ↔ column ∈ [ "ecfr_id"; "cfr_reference"; "title";
                           "corrective_action"; "error_occurred";
                           "error_corrected"; "lag_days"; "year" ])
           (get_corrections_for_agency conn slug limit).
Proof.
  split_and!.
  - apply Forall_to_dicts. intros r column. apply agency_metric_record_keys.
  - apply Forall_to_dicts. intros r column. apply yearly_record_keys.
  - apply Forall_to_dicts. intros r column. apply title_record_keys.
  - apply Forall_to_dicts. intros r column. apply time_series_record_keys.
  - apply Forall_to_dicts. intros r column. apply correction_record_keys.
Qed.

(** X11. The listings without [LIMIT] and without [WHERE] are complete:
    [get_correction_trends_yearly] and [get_time_series_data] return one
    record per stored row, those of the table rearranged, so no row is
    dropped and none comes twice. *)
Theorem trend_listings_complete conn :
  (∃ rows, rows ≡ₚ correction_trends_yearly conn
           ∧ get_correction_trends_yearly conn
             = to_dicts yearly_columns (select_yearly conn <$> rows))
  ∧ length (get_correction_trends_yearly conn)
    = length (correction_trends_yearly conn)
  ∧ (∃ rows, rows ≡ₚ correction_time_series conn
             ∧ get_time_series_data conn
               = to_dicts time_series_columns
                   (select_time_series conn <$> rows))
  ∧ length (get_time_series_data conn) = length (correction_time_series conn).
Proof.
  split_and!.
  - eexists. split; [apply order_by_perm|reflexivity].
  - unfold get_correction_trends_yearly.
    by rewrite to_dicts_length, length_fmap,
      (Permutation_length (order_by_perm _ _)).
  - eexists. split; [apply order_by_perm|reflexivity].
  - unfold get_time_series_data.
    by rewrite to_dicts_length, length_fmap,
      (Permutation_length (order_by_perm _ _)).
Qed.

(** ** The two views of an agency *)

Lemma agency_metric_record_listed conn (r : AgencyMetrics.row) :
  r ∈ agency_metrics conn →
  agency_metric_record conn r ∈ get_agency_metrics conn None.
Proof.
  intros Hin. unfold get_agency_metrics, to_dicts. simpl.
  rewrite <- list_fmap_compose.
  apply list_elem_of_fmap. exists r. split; [done|].
  by apply elem_of_order_by.
Qed.

Lemma agency_metrics_listing_origin conn (limit : option N) d :
  d ∈ get_agency_metrics conn limit →
  ∃ r, r ∈ agency_metrics conn ∧ d = agency_metric_record conn r.
Proof.
  unfold get_agency_metrics, to_dicts.
  intros (row & -> & Hrow)%list_elem_of_fmap.
  apply list_elem_of_fmap in Hrow as (r & -> & Hr).
  exists r. split; [|done].
  destruct (limit_given limit); [apply elem_of_limit in Hr|];
    by apply elem_of_order_by in Hr.
Qed.

Lemma rvi_record_within conn (r : AgencyMetrics.row) :
  dict (zip rvi_columns (select_rvi r)) ⊆ agency_metric_record conn r.
Proof.
  apply map_subseteq_spec. intros column v Hv.
  assert (column ∈ rvi_columns) as Hcolumn
    by (apply (proj1 (rvi_record_keys r column)); by eexists).
  unfold rvi_columns in Hcolumn.
  repeat (apply elem_of_cons in Hcolumn as [->|Hcolumn];
          [vm_compute in Hv; injection Hv as <-; vm_compute; reflexivity|]).
  by apply elem_of_nil in Hcolumn.
Qed.

(** X12. The records of [get_top_agencies_by_rvi] agree with the full
    listing: each is contained, field by field, in a record that
    [get_agency_metrics] returns without limit, so the six fields it
    carries have the values of the full record of the same stored row. *)
Theorem rvi_records_within_full_records conn (limit : N) :
  Forall (λ d, ∃ full, full ∈ get_agency_metrics conn None ∧ d ⊆ full)
         (get_top_agencies_by_rvi conn limit).
Proof.
  apply Forall_forall. intros d Hd.
  apply top_agencies_by_rvi_origin in Hd as (r & Hin & _ & ->).
  exists (agency_metric_record conn r). split.
  - by apply agency_metric_record_listed.
  - apply rvi_record_within.
Qed.

(** X13. [get_agency_detail] agrees with the listing: the record it returns
    carries the slug asked for and is one of the records that
    [get_agency_metrics] returns without limit; and when it returns [None],
    no record of that listing carries the slug. *)
Theorem agency_detail_agrees_with_listing conn (slug : string) :
  match get_agency_detail conn slug with
  | Some d =>
      d ∈ get_agency_metrics conn None ∧ d !! "slug" = Some (PyStr slug)
  | None =>
      Forall (λ d, d !! "slug" ≠ Some (PyStr slug))
             (get_agency_metrics conn None)
  end.
Proof.
  rewrite get_agency_detail_fetch.
  destruct (Sql.fetchone _) as [r|] eqn:E; simpl.
  - apply fetchone_where_Some in E as [Hin Hslug%String.eqb_eq].
    split; [by apply agency_metric_record_listed|].
    rewrite <- Hslug. vm_compute. reflexivity.
  - rewrite fetchone_where_None in E.
    apply Forall_forall. intros d (r & Hr & ->)%agency_metrics_listing_origin.
    assert (agency_metric_record conn r !! "slug"
            = Some (PyStr (AgencyMetrics.slug r))) as ->
      by (vm_compute; reflexivity).
    intros [= Heq]. specialize (E r Hr). apply String.eqb_neq in E. done.
Qed.

(** X14. When several stored rows carry the slug, [get_agency_detail]
    returns the record of the first of them in storage order and ignores
    the others. *)
Theorem agency_detail_first_match conn (slug : string)
    (earlier later : list AgencyMetrics.row) (r : AgencyMetrics.row) :
  agency_metrics conn = (earlier ++ r :: later)%list →
  Forall (λ r', AgencyMetrics.slug r' ≠ slug) earlier →
  AgencyMetrics.slug r = slug →
  get_agency_detail conn slug = Some (agency_metric_record conn r).
Proof.
  intros Htable Hearlier Hslug. rewrite get_agency_detail_fetch, Htable.
  unfold Sql.where_, Sql.fetchone. rewrite List.filter_app.
  assert (List.filter (λ r', String.eqb (AgencyMetrics.slug r') slug) earlier
          = []) as ->.
  { clear Htable. induction Hearlier as [|r' l Hne _ IH]; [done|]. simpl.
    apply String.eqb_neq in Hne. rewrite Hne. exact IH. }
  simpl. by rewrite (proj2 (String.eqb_eq _ _) Hslug).
Qed.

Lemma agency_detail_first_match_witness :
  get_agency_detail Fixtures.twice_b "b"
  = Some (agency_metric_record Fixtures.twice_b Fixtures.first_b).
Proof.
  apply (agency_detail_first_match Fixtures.twice_b "b"
           [Sample.agency_a] [Sample.agency_b] Fixtures.first_b).
  - reflexivity.
  - repeat constructor. discriminate.
  - reflexivity.
Defined.

(** * Corrections of an agency, continued *)

Lemma agency_corrections_matching conn slug :
  agency_corrections_ordered conn slug
  ≡ₚ filter (λ c, Correction.title c ∈ agency_titles conn slug)
            (corrections_parsed conn).
Proof.
  unfold agency_corrections_ordered.
  rewrite order_by_perm, join_distinct_titles by apply NoDup_remove_dups.
  fold (Sql.where_ (λ c, bool_decide (Correction.title c ∈ agency_titles conn slug))
                   (corrections_parsed conn)).
  rewrite (where_filter _ (λ c, Correction.title c ∈ agency_titles conn slug));
    [done|].
  intros c. apply bool_decide_eq_true.
Qed.

Lemma filter_empty_Forall {A} (P : A → Prop) `{∀ x, Decision (P x)}
    (l : list A) :
  filter P l = [] ↔ Forall (λ x, ¬ P x) l.
Proof.
  induction l as [|x l IH]; [by split|].
  rewrite filter_cons, Forall_cons. case_decide as HP.
  - split; [done|]. by intros [? _].
  - rewrite IH. tauto.
Qed.

(** X15. [get_corrections_for_agency] returns as many records as there are
    corrections whose title is one of the titles of the agency, up to the
    limit. It returns the empty list exactly when the limit is 0 or no
    correction bears a title of the agency; in particular an agency without
    stored references gets the empty list, not an error. *)
Theorem corrections_for_agency_count conn (slug : string) (limit : N) :
  length (get_corrections_for_agency conn slug limit)
  = Nat.min (N.to_nat limit)
      (length (filter (λ c, Correction.title c ∈ agency_titles conn slug)
                      (corrections_parsed conn)))
  ∧ (get_corrections_for_agency conn slug limit = []
     ↔ limit = 0%N
       ∨ Forall (λ c, Correction.title c ∉ agency_titles conn slug)
                (corrections_parsed conn))
  ∧ (slug ∉ CfrReference.agency_slug <$> cfr_references conn →
     get_corrections_for_agency conn slug limit = []).
Proof.
  assert (length (get_corrections_for_agency conn slug limit)
          = Nat.min (N.to_nat limit)
              (length (filter (λ c, Correction.title c ∈ agency_titles conn slug)
                              (corrections_parsed conn)))) as Hlen.
  { unfold get_corrections_for_agency, Sql.limit.
    rewrite to_dicts_length, length_fmap, length_take.
    by rewrite (Permutation_length (agency_corrections_matching conn slug)). }
  assert (get_corrections_for_agency conn slug limit = []
          ↔ limit = 0%N
            ∨ Forall (λ c, Correction.title c ∉ agency_titles conn slug)
                     (corrections_parsed conn)) as Hempty.
  { rewrite <- length_zero_iff_nil, Hlen.
    rewrite <- (filter_empty_Forall
                  (λ c, Correction.title c ∈ agency_titles conn slug)).
    rewrite <- (length_zero_iff_nil (filter _ _)). lia. }
  split_and!; [exact Hlen|exact Hempty|].
  intros Hnone. apply Hempty. right.
  apply Forall_forall. intros c _.
  unfold agency_titles, Sql.distinct.
  rewrite elem_of_remove_dups, list_elem_of_fmap.
  intros (r & _ & [Hin Hslug%String.eqb_eq]%elem_of_where).
  apply Hnone, list_elem_of_fmap. by exists r.
Qed.

Lemma corrections_for_agency_count_witness :
  get_corrections_for_agency Sample.conn "zz" 5 = [].
Proof.
  apply (proj2 (proj2 (corrections_for_agency_count Sample.conn "zz" 5))).
  compute_done.
Defined.



(** * The summary report *)

Section aggregates.

Implicit Types (xs : list Z).

Lemma min_of_cons x xs :
  Aggregate.min_of (x :: xs)
  = Some (from_option (Z.min x) x (Aggregate.min_of xs)).
Proof. reflexivity. Qed.

Lemma max_of_cons x xs :
  Aggregate.max_of (x :: xs)
  = Some (from_option (Z.max x) x (Aggregate.max_of xs)).
Proof. reflexivity. Qed.

(** [MIN] over at least one row is the least value of the column. *)
Lemma min_of_least x xs :
  ∃ lo, Aggregate.min_of (x :: xs) = Some lo
        ∧ lo ∈ x :: xs ∧ Forall (λ y, lo ≤ y) (x :: xs).
Proof.
  revert x. induction xs as [|x' xs IH]; intros x.
  - exists x. split_and!; [done|by left|]. repeat constructor. lia.
  - destruct (IH x') as (lo & Hlo & Hin & Hall).
    rewrite min_of_cons, Hlo. simpl.
    exists (Z.min x lo). split; [done|].
    destruct (Z.min_spec x lo) as [[Hlt ->]|[Hle ->]].
    + split; [by left|]. constructor; [lia|].
      eapply Forall_impl; [exact Hall|]. simpl. lia.
    + split; [by right|]. constructor; [lia|done].
Qed.

(** [MAX] over at least one row is the greatest value of the column. *)
Lemma max_of_greatest x xs :
  ∃ hi, Aggregate.max_of (x :: xs) = Some hi
        ∧ hi ∈ x :: xs ∧ Forall (λ y, y ≤ hi) (x :: xs).
Proof.
  revert x. induction xs as [|x' xs IH]; intros x.
  - exists x. split_and!; [done|by left|]. repeat constructor. lia.
  - destruct (IH x') as (hi & Hhi & Hin & Hall).
    rewrite max_of_cons, Hhi. simpl.
    exists (Z.max x hi). split; [done|].
    destruct (Z.max_spec x hi) as [[Hlt ->]|[Hle ->]].
    + split; [by right|]. constructor; [lia|done].
    + split; [by left|]. constructor; [lia|].
      eapply Forall_impl; [exact Hall|]. simpl. lia.
Qed.

End aggregates.

(** X18. The [year_range] of the summary report is [(None, None)] when no
    correction is stored. Otherwise it is a pair of integers, the year of
    some stored correction each, and the year of every stored correction
    lies between the two. *)
Theorem summary_report_year_range {A} conn (agencies_parsed : list A) :
  let range :=
    SummaryReport.year_range
      (SummaryReport.report_overview
         (SummaryReport.generate_summary_report conn agencies_parsed)) in
  match corrections_parsed conn with
  | [] => range = (PyNone, PyNone)
  | _ :: _ =>
      ∃ lo hi,
        range = (PyInt lo, PyInt hi)
        ∧ lo ∈ Correction.year <$> corrections_parsed conn
        ∧ hi ∈ Correction.year <$> corrections_parsed conn
        ∧ Forall (λ c, lo ≤ Correction.year c ≤ hi) (corrections_parsed conn)
  end.
Proof.
  cbv zeta. unfold SummaryReport.generate_summary_report. simpl.
  destruct (corrections_parsed conn) as [|c cs]; [done|].
  rewrite fmap_cons.
  destruct (min_of_least (Correction.year c) (Correction.year <$> cs))
    as (lo & -> & Hlo & Hmin).
  destruct (max_of_greatest (Correction.year c) (Correction.year <$> cs))
    as (hi & -> & Hhi & Hmax).
  exists lo, hi. split_and!; [done..|].
  rewrite Forall_forall in Hmin. rewrite Forall_forall in Hmax.
  apply Forall_forall. intros c' Hc'.
  assert (Correction.year c' ∈ Correction.year c :: (Correction.year <$> cs))
    as Hyear by (rewrite <- fmap_cons; by apply list_elem_of_fmap_2).
  specialize (Hmin _ Hyear). specialize (Hmax _ Hyear). simpl in Hmin, Hmax.
  lia.
Qed.

(** X19. The summary report has a fixed shape: its three rankings hold ten
    records, or all there are when fewer qualify (stored agencies, agencies
    with corrections, stored titles), its yearly trends hold one record per
    stored year, and its counts are the sizes of the tables. *)
Theorem summary_report_shape {A} conn (agencies_parsed : list A) :
  let report := SummaryReport.generate_summary_report conn agencies_parsed in
  length (SummaryReport.top_agencies_by_corrections report)
  = Nat.min 10 (length (agency_metrics conn))
  ∧ length (SummaryReport.top_agencies_by_rvi report)
    = Nat.min 10
        (length (filter (λ r, 0 < AgencyMetrics.total_corrections r)
                        (agency_metrics conn)))
  ∧ length (SummaryReport.top_titles report)
    = Nat.min 10 (length (correction_trends_by_title conn))
  ∧ length (SummaryReport.yearly_trends report)
    = length (correction_trends_yearly conn)
  ∧ SummaryReport.total_agencies (SummaryReport.report_overview report)
    = Z.of_nat (length agencies_parsed)
  ∧ SummaryReport.total_corrections (SummaryReport.report_overview report)
    = Z.of_nat (length (corrections_parsed conn))
  ∧ SummaryReport.total_cfr_references (SummaryReport.report_overview report)
    = Z.of_nat (length (cfr_references conn)).
Proof.
  cbv zeta. unfold SummaryReport.generate_summary_report. simpl.
  split_and!; [| | | |reflexivity..].
  - unfold get_agency_metrics, Sql.limit. simpl.
    by rewrite to_dicts_length, length_fmap, length_take,
      (Permutation_length (order_by_perm _ _)).
  - unfold get_top_agencies_by_rvi, rvi_ordered, Sql.limit.
    rewrite to_dicts_length, length_fmap, length_take,
      (Permutation_length (order_by_perm _ _)).
    by rewrite (where_filter has_corrections
                  (λ r, 0 < AgencyMetrics.total_corrections r))
      by (intros r; unfold has_corrections; apply Z.ltb_lt).
  - unfold get_correction_trends_by_title, title_trends_ordered, Sql.limit.
    by rewrite to_dicts_length, length_fmap, length_take,
      (Permutation_length (order_by_perm _ _)).
  - unfold get_correction_trends_yearly.
    by rewrite to_dicts_length, length_fmap,
      (Permutation_length (order_by_perm _ _)).
Qed.

(** X20. The trends that [main] lists as recent are the latest ones: the
    slice [[-5:]] of the yearly trends holds five records, or all when
    there are fewer, in non-decreasing order of year, and no stored year
    that is left out is later than a year that is listed. *)
Theorem recent_yearly_trends_are_latest {A} conn (agencies_parsed : list A) :
  ∃ earlier recent : list YearlyTrend.row,
    earlier ++ recent ≡ₚ correction_trends_yearly conn
    ∧ SummaryReport.recent_yearly_trends
        (SummaryReport.generate_summary_report conn agencies_parsed)
      = to_dicts yearly_columns (select_yearly conn <$> recent)
    ∧ length recent = Nat.min 5 (length (correction_trends_yearly conn))
    ∧ StronglySorted (λ a b, YearlyTrend.year a ≤ YearlyTrend.year b) recent
    ∧ Forall
        (λ old, Forall (λ new, YearlyTrend.year old ≤ YearlyTrend.year new)
                       recent)
        earlier.
Proof.
  set (ordered := Sql.order_by year_asc (correction_trends_yearly conn)).
  assert (length ordered = length (correction_trends_yearly conn)) as Hlen
    by apply Permutation_length, order_by_perm.
  assert (StronglySorted (λ a b, YearlyTrend.year a ≤ YearlyTrend.year b)
            ordered) as Hsorted.
  { eapply StronglySorted_weaken;
      [|apply order_by_sorted; [apply year_asc_total | apply year_asc_trans]].
    intros a b. unfold year_asc. by leb_prop. }
  exists (take (length ordered - 5) ordered),
         (drop (length ordered - 5) ordered).
  rewrite <- (take_drop (length ordered - 5) ordered) in Hsorted.
  split_and!.
  - rewrite take_drop. apply order_by_perm.
  - unfold SummaryReport.recent_yearly_trends, SummaryReport.last_five.
    simpl. unfold get_correction_trends_yearly, to_dicts. fold ordered.
    by rewrite !length_fmap, !fmap_drop.
  - rewrite length_drop. lia.
  - by apply StronglySorted_app_1_r in Hsorted.
  - apply Forall_forall. intros a Ha. apply Forall_forall. intros b Hb.
    by apply (StronglySorted_app_1_elem_of _ _ _ a b Hsorted).
Qed.

(** * Limits and ties

    The queries order by one or two columns and name no further column to
    break ties, so the order of the rows that tie is left to the engine and
    may differ from one call to the next. What follows holds of every
    arrangement of the rows that the ordering allows. *)

Section arrangements.

Context {A : Type}.
Implicit Types (rows full : list A) (before : A → A → bool).

(** When no two distinct rows tie, the ordering allows one arrangement
    only. *)
Lemma sorted_arrangement_unique before rows full :
  (∀ a b, before a b = true ∨ before b a = true) →
  (∀ a b c, before a b = true → before b c = true → before a c = true) →
  (∀ a b, a ∈ rows → b ∈ rows →
          before a b = true → before b a = true → a = b) →
  full ≡ₚ rows →
  StronglySorted (λ a b, before a b = true) full →
  full = Sql.order_by before rows.
Proof.
  intros Htotal Htrans Hties Hperm Hsorted.
  apply (StronglySorted_unique_strong (λ a b, before a b = true)).
  - intros a b Ha Hb. apply Hties.
    + by rewrite <- Hperm.
    + by apply elem_of_order_by in Hb.
  - exact Hsorted.
  - by apply order_by_sorted.
  - by rewrite order_by_perm.
Qed.

End arrangements.

Lemma date_leb_antisym a b :
  Sql.date_leb a b = true → Sql.date_leb b a = true → a = b.
Proof.
  destruct a as [ya ma da], b as [yb mb db]. unfold Sql.date_leb. simpl.
  leb_prop.
  intros [?|[? [?|[? ?]]]] [?|[? [?|[? ?]]]]; try lia.
  f_equal; lia.
Qed.

Lemma year_corrected_desc_tie a b :
  year_corrected_desc a b = true → year_corrected_desc b a = true →
  Correction.year a = Correction.year b
  ∧ Correction.error_corrected a = Correction.error_corrected b.
Proof.
  unfold year_corrected_desc, Sql.desc_nulls_last.
  destruct (Correction.error_corrected a) as [da|],
           (Correction.error_corrected b) as [db|];
    leb_prop; intros [?|[? Hab]] [?|[? Hba]]; try lia; try discriminate.
  - split; [done|]. f_equal. by apply date_leb_antisym.
  - done.
Qed.

(** C4, amended: with a limit [k] that the engine accepts ([k < 2^63]),
    a limited listing returns at most [k] records, and they are the first
    [k] of some arrangement of all the rows of the listing sorted under the
    order of the query; [get_agency_metrics] does so for [k >= 1] and takes
    a limit of 0 as no limit, the listings whose query always carries the
    clause do so for every [k >= 0]. When no two stored rows tie on the
    column the query orders by, there is one such arrangement only: the
    limited listing is then the first [k] of every complete sorted listing,
    and [get_agency_metrics] with a limit returns a prefix of what it
    returns without one. Nothing is said of the order of rows that tie. *)
Theorem limited_listing_is_bounded_prefix conn (k : N) :
  (k < 2 ^ 63)%N →
  (k ≠ 0%N →
     (length (get_agency_metrics conn (Some k)) ≤ N.to_nat k)%nat
     ∧ (∃ full,
          full ≡ₚ agency_metrics conn
          ∧ StronglySorted
              (λ a b, AgencyMetrics.total_corrections b
                      ≤ AgencyMetrics.total_corrections a) full
          ∧ get_agency_metrics conn (Some k)
            = to_dicts agency_metric_columns
                (select_agency_metric conn <$> take (N.to_nat k) full))
     ∧ ((∀ a b, a ∈ agency_metrics conn → b ∈ agency_metrics conn →
                AgencyMetrics.total_corrections a
                = AgencyMetrics.total_corrections b → a = b) →
        (∀ full,
           full ≡ₚ agency_metrics conn →
           StronglySorted
             (λ a b, AgencyMetrics.total_corrections b
                     ≤ AgencyMetrics.total_corrections a) full →
           get_agency_metrics conn (Some k)
           = to_dicts agency_metric_columns
               (select_agency_metric conn <$> take (N.to_nat k) full))
        ∧ get_agency_metrics conn (Some k)
            `prefix_of` get_agency_metrics conn None))
  ∧ get_agency_metrics conn (Some 0%N) = get_agency_metrics conn None
  ∧ ((length (get_correction_trends_by_title conn k) ≤ N.to_nat k)%nat
     ∧ (∃ full,
          full ≡ₚ correction_trends_by_title conn
          ∧ StronglySorted
              (λ a b, TitleTrend.correction_count b
                      ≤ TitleTrend.correction_count a) full
          ∧ get_correction_trends_by_title conn k
            = to_dicts title_columns
                (select_title conn <$> take (N.to_nat k) full))
     ∧ ((∀ a b, a ∈ correction_trends_by_title conn →
                b ∈ correction_trends_by_title conn →
                TitleTrend.correction_count a = TitleTrend.correction_count b →
                a = b) →
        ∀ full,
          full ≡ₚ correction_trends_by_title conn →
          StronglySorted
            (λ a b, TitleTrend.correction_count b
                    ≤ TitleTrend.correction_count a) full →
          get_correction_trends_by_title conn k
          = to_dicts title_columns
              (select_title conn <$> take (N.to_nat k) full)))
  ∧ ((length (get_top_agencies_by_rvi conn k) ≤ N.to_nat k)%nat
     ∧ ∃ full,
         full ≡ₚ filter (λ r, 0 < AgencyMetrics.total_corrections r)
                        (agency_metrics conn)
         ∧ StronglySorted
             (λ a b, Sql.desc_nulls_last Sql.double_leb
                       (AgencyMetrics.rvi a) (AgencyMetrics.rvi b) = true)
             full
         ∧ get_top_agencies_by_rvi conn k
           = to_dicts rvi_columns (select_rvi <$> take (N.to_nat k) full))
  ∧ (∀ slug,
       (length (get_corrections_for_agency conn slug k) ≤ N.to_nat k)%nat
       ∧ ∃ full,
           full ≡ₚ filter (λ c, Correction.title c ∈ agency_titles conn slug)
                          (corrections_parsed conn)
           ∧ StronglySorted
               (λ a b,
                  Correction.year b < Correction.year a
                  ∨ (Correction.year a = Correction.year b
                     ∧ Sql.desc_nulls_last Sql.date_leb
                         (Correction.error_corrected a)
                         (Correction.error_corrected b) = true))
               full
           ∧ get_corrections_for_agency conn slug k
             = to_dicts correction_columns
                 (select_correction <$> take (N.to_nat k) full)).
Proof.
  intros _.
  assert (∀ l, StronglySorted (λ a b, total_corrections_desc a b = true) l
               ↔ StronglySorted
                   (λ a b, AgencyMetrics.total_corrections b
                           ≤ AgencyMetrics.total_corrections a) l)
    as Hmetric_order.
  { intros l. split; apply StronglySorted_weaken; intros a b;
      unfold total_corrections_desc; by leb_prop. }
  assert (∀ l, StronglySorted (λ a b, correction_count_desc a b = true) l
               ↔ StronglySorted
                   (λ a b, TitleTrend.correction_count b
                           ≤ TitleTrend.correction_count a) l)
    as Htitle_order.
  { intros l. split; apply StronglySorted_weaken; intros a b;
      unfold correction_count_desc; by leb_prop. }
  split_and!.
  - intros Hk.
    assert (get_agency_metrics conn (Some k)
            = to_dicts agency_metric_columns
                (select_agency_metric conn
                   <$> take (N.to_nat k)
                         (Sql.order_by total_corrections_desc
                            (agency_metrics conn)))) as Hresult.
    { unfold get_agency_metrics.
      assert (limit_given (Some k) = true) as ->
        by (simpl; by apply negb_true_iff, N.eqb_neq).
      reflexivity. }
    split_and!.
    + rewrite Hresult, to_dicts_length, length_fmap, length_take. lia.
    + eexists. split_and!; [apply order_by_perm| |exact Hresult].
      apply Hmetric_order, order_by_sorted;
        [apply total_corrections_desc_total|apply total_corrections_desc_trans].
    + intros Hties.
      assert (∀ full,
                full ≡ₚ agency_metrics conn →
                StronglySorted
                  (λ a b, AgencyMetrics.total_corrections b
                          ≤ AgencyMetrics.total_corrections a) full →
                full = Sql.order_by total_corrections_desc (agency_metrics conn))
        as Hunique.
      { intros full Hperm Hsorted.
        apply sorted_arrangement_unique;
          [apply total_corrections_desc_total
          |apply total_corrections_desc_trans| |done|by apply Hmetric_order].
        intros a b Ha Hb. unfold total_corrections_desc. leb_prop.
        intros ? ?. apply Hties; [done..|lia]. }
      split.
      * intros full Hperm Hsorted.
        by rewrite Hresult, (Hunique full Hperm Hsorted).
      * rewrite Hresult. unfold get_agency_metrics, to_dicts. simpl.
        do 2 apply prefix_fmap. apply prefix_take.
  - reflexivity.
  - unfold get_correction_trends_by_title, Sql.limit.
    rewrite to_dicts_length, length_fmap, length_take. lia.
  - eexists. split_and!; [apply order_by_perm| |reflexivity].
    apply Htitle_order, order_by_sorted;
      [apply correction_count_desc_total|apply correction_count_desc_trans].
  - intros Hties full Hperm Hsorted.
    unfold get_correction_trends_by_title, title_trends_ordered, Sql.limit.
    do 3 f_equal. symmetry.
    apply sorted_arrangement_unique;
      [apply correction_count_desc_total
      |apply correction_count_desc_trans| |done|by apply Htitle_order].
    intros a b Ha Hb. unfold correction_count_desc. leb_prop.
    intros ? ?. apply Hties; [done..|lia].
  - unfold get_top_agencies_by_rvi, Sql.limit.
    rewrite to_dicts_length, length_fmap, length_take. lia.
  - exists (rvi_ordered conn). split_and!; [| |reflexivity].
    + unfold rvi_ordered. rewrite order_by_perm.
      by rewrite (where_filter has_corrections
                    (λ r, 0 < AgencyMetrics.total_corrections r))
        by (intros r; unfold has_corrections; apply Z.ltb_lt).
    + apply order_by_sorted; [apply rvi_desc_total|apply rvi_desc_trans].
  - intros slug. split.
    + unfold get_corrections_for_agency, Sql.limit.
      rewrite to_dicts_length, length_fmap, length_take. lia.
    + exists (agency_corrections_ordered conn slug).
      split_and!; [apply agency_corrections_matching| |reflexivity].
      eapply StronglySorted_weaken;
        [|apply order_by_sorted;
          [apply year_corrected_desc_total | apply year_corrected_desc_trans]].
      intros a b. unfold year_corrected_desc. leb_prop. tauto.
Qed.

Lemma limited_listing_is_bounded_prefix_witness :
  (1 < 2 ^ 63)%N ∧ 1%N ≠ 0%N
  ∧ (length (get_agency_metrics Sample.conn (Some 1%N)) ≤ N.to_nat 1)%nat
  ∧ get_agency_metrics Sample.conn (Some 1%N)
      `prefix_of` get_agency_metrics Sample.conn None.
Proof.
  assert (1 < 2 ^ 63)%N as Hrange by reflexivity.
  assert (1%N ≠ 0%N) as Hpos by discriminate.
  destruct (proj1 (limited_listing_is_bounded_prefix Sample.conn 1%N Hrange)
              Hpos) as (Hbound & _ & Hdistinct).
  split_and!; [exact Hrange|exact Hpos|exact Hbound|].
  apply Hdistinct.
  intros a b Ha Hb.
  apply elem_of_cons in Ha as [->|Ha];
    [|apply elem_of_cons in Ha as [->|Ha]; [|by apply elem_of_nil in Ha]];
    (apply elem_of_cons in Hb as [->|Hb];
     [|apply elem_of_cons in Hb as [->|Hb]; [|by apply elem_of_nil in Hb]]);
    first [reflexivity | discriminate].
Defined.

(** X16. When no two stored corrections share both year and correction
    date, the listing of [get_corrections_for_agency] is settled by its
    [ORDER BY]: it is the first [k] of every arrangement of the matching
    corrections sorted by year and date descending, and raising the limit
    only appends records. Nothing is said when corrections tie, since the
    engine is then free to order them differently from call to call. *)
Theorem corrections_limit_monotone conn (slug : string) (k k' : N) :
  (k ≤ k')%N →
  (k' < 2 ^ 63)%N →
  (∀ a b, a ∈ corrections_parsed conn → b ∈ corrections_parsed conn →
          Correction.year a = Correction.year b →
          Correction.error_corrected a = Correction.error_corrected b →
          a = b) →
  (∀ full,
     full ≡ₚ filter (λ c, Correction.title c ∈ agency_titles conn slug)
                    (corrections_parsed conn) →
     StronglySorted
       (λ a b,
          Correction.year b < Correction.year a
          ∨ (Correction.year a = Correction.year b
             ∧ Sql.desc_nulls_last Sql.date_leb
                 (Correction.error_corrected a)
                 (Correction.error_corrected b) = true))
       full →
     get_corrections_for_agency conn slug k
     = to_dicts correction_columns
         (select_correction <$> take (N.to_nat k) full))
  ∧ get_corrections_for_agency conn slug k
      `prefix_of` get_corrections_for_agency conn slug k'.
Proof.
  intros Hle _ Hties.
  set (joined := fst <$> Sql.inner_join (λ c t, Correction.title c =? t)
                          (corrections_parsed conn) (agency_titles conn slug)).
  assert (∀ c, c ∈ joined → c ∈ corrections_parsed conn) as Hjoined.
  { intros c. unfold joined.
    rewrite join_distinct_titles by apply NoDup_remove_dups.
    by intros [? _]%elem_of_where. }
  assert (∀ full,
            full ≡ₚ filter (λ c, Correction.title c ∈ agency_titles conn slug)
                           (corrections_parsed conn) →
            StronglySorted
              (λ a b,
                 Correction.year b < Correction.year a
                 ∨ (Correction.year a = Correction.year b
                    ∧ Sql.desc_nulls_last Sql.date_leb
                        (Correction.error_corrected a)
                        (Correction.error_corrected b) = true))
              full →
            full = agency_corrections_ordered conn slug) as Hunique.
  { intros full Hperm Hsorted. unfold agency_corrections_ordered. fold joined.
    apply sorted_arrangement_unique;
      [apply year_corrected_desc_total|apply year_corrected_desc_trans| | |].
    - intros a b Ha Hb Hab Hba.
      destruct (year_corrected_desc_tie a b Hab Hba).
      apply Hties; auto.
    - rewrite Hperm, <- (agency_corrections_matching conn slug).
      unfold agency_corrections_ordered. fold joined. apply order_by_perm.
    - eapply StronglySorted_weaken; [|exact Hsorted].
      intros a b. unfold year_corrected_desc. leb_prop. tauto. }
  split.
  - intros full Hperm Hsorted.
    by rewrite (Hunique full Hperm Hsorted).
  - unfold get_corrections_for_agency, to_dicts, Sql.limit.
    do 2 apply prefix_fmap.
    replace (N.to_nat k) with (Nat.min (N.to_nat k) (N.to_nat k')) by lia.
    rewrite <- take_take. apply prefix_take.
Qed.

Lemma corrections_limit_monotone_witness :
  (1 ≤ 2)%N ∧ (2 < 2 ^ 63)%N
  ∧ get_corrections_for_agency Sample.conn "epa" 1
      `prefix_of` get_corrections_for_agency Sample.conn "epa" 2.
Proof.
  assert (1 ≤ 2)%N as Hle by discriminate.
  assert (2 < 2 ^ 63)%N as Hrange by reflexivity.
  assert (∀ a b, a ∈ corrections_parsed Sample.conn →
                 b ∈ corrections_parsed Sample.conn →
                 Correction.year a = Correction.year b →
                 Correction.error_corrected a = Correction.error_corrected b →
                 a = b) as Hties.
  { intros a b Ha Hb.
    repeat (apply elem_of_cons in Ha as [->|Ha]);
      try (by apply elem_of_nil in Ha);
      repeat (apply elem_of_cons in Hb as [->|Hb]);
      try (by apply elem_of_nil in Hb);
      intros Hyear _;
      first [reflexivity | vm_compute in Hyear; discriminate Hyear]. }
  split_and!; [exact Hle|exact Hrange|].
  exact (proj2 (corrections_limit_monotone Sample.conn "epa" 1 2
                  Hle Hrange Hties)).
Defined.
